(** * Life Timeline Planner: the timeline aggregation engine of [App]

    A shallow embedding of the React component [App] of [src/src/main.jsx]:
    the component state (milestones, form, editingId, hidden), its event
    handlers ([handleSubmit], [handleEdit], [handleDelete],
    [toggleTimeline], [handleFormChange]) as state transformers, and the
    memoised values derived from the state ([timelines], [timelineColors],
    [chartData]) as functions of it. *)

From Stdlib Require Import ZArith NArith Ascii String.
From stdpp Require Import base option list sorting strings gmap.

Local Open Scope string_scope.
Local Open Scope list_scope.

#[local] Set Warnings "-clear-no-such-hyp".

(** * The component *)

(** ** JavaScript values used by the component *)

(** A JS number that holds a time value: an integer count of milliseconds,
    or [NaN]. *)
Inductive jsnum : Type :=
  | NaN
  | Num (ms : Z).

#[global] Instance jsnum_eq_dec : EqDecision jsnum.
Proof. solve_decision. Defined.

(** A [Date] object is its time value; the time value of an Invalid Date
    is [NaN]. *)
Definition Date : Type := jsnum.
Definition getTime (d : Date) : jsnum := d.

(** [!s] on a string: only the empty string is falsy. *)
Definition truthy (s : string) : bool :=
  match s with
  | EmptyString => false
  | String _ _ => true
  end.

(** Truthiness of a value that is [null] or a string. *)
Definition truthy_opt (v : option string) : bool :=
  match v with
  | Some s => truthy s
  | None => false
  end.

(** [a || b] where [a] is [null] or a string. *)
Definition or_else (a : option string) (b : string) : string :=
  match a with
  | Some s => if truthy s then s else b
  | None => b
  end.

(** ** Data model *)

(** A stored milestone.  [notes] is [undefined] when the form that produced
    the record had no such property. *)
Record Milestone : Type := mkMilestone {
  m_id : string;
  m_title : string;
  m_timeline : string;
  m_start : string;
  m_end : string;
  m_notes : option string;
}.

#[global] Instance Milestone_eq_dec : EqDecision Milestone.
Proof. solve_decision. Defined.

(** The [form] state. *)
Record Form : Type := mkForm {
  f_title : string;
  f_timeline : string;
  f_start : string;
  f_end : string;
  f_notes : option string;
}.

(** The four pieces of React state held by [App].  [hidden] is a JS [Set]
    on which the component only ever calls [has], [add] and [delete], so
    its insertion order is never observed: it is a finite set. *)
Record AppState : Type := mkState {
  milestones : list Milestone;
  form : Form;
  editingId : option string;
  hidden : gset string;
}.

(** ** An insertion-ordered [Set] of strings

    [new Set(iterable)] adds the elements one by one; an element that is
    already present keeps its place.  [Array.from] lists the elements in
    insertion order, so the set is represented by that list. *)
Definition Set_add (s : list string) (x : string) : list string :=
  if decide (x ∈ s) then s else s ++ [x].

Definition new_Set (l : list string) : list string :=
  foldl Set_add [] l.

Definition Array_from (s : list string) : list string := s.

(** ** The Timeline Index (lines 74-76) *)

Definition timelines (ms : list Milestone) : list string :=
  Array_from (new_Set (m_timeline <$> ms)).

(** ** The colour palette and the Color Assigner (lines 41-51, 78-84) *)

(** A colour family is the array [[light, mid, dark]]. *)
Definition ColorFamily : Type := (string * string * string)%type.

Definition colorFamilies : list ColorFamily :=
  [ ("#E3F2FD", "#42A5F5", "#1E88E5");  (* blue *)
    ("#E8F5E9", "#66BB6A", "#43A047");  (* green *)
    ("#F3E5F5", "#AB47BC", "#8E24AA");  (* purple *)
    ("#FFF8E1", "#FFB300", "#FB8C00");  (* amber *)
    ("#E0F2F1", "#26A69A", "#00897B")   (* teal *) ].

(** Reading an array out of range gives [undefined], here [None]. *)
Definition getColorFamily (index : nat) : option ColorFamily :=
  colorFamilies !! (index mod length colorFamilies).

(** [array.forEach((x, idx) => ...)] threading the state the callback
    mutates; [idx] is the index of the first element of [l]. *)
Fixpoint forEach_from {A St : Type} (f : St → A → nat → St)
    (idx : nat) (l : list A) (s : St) : St :=
  match l with
  | [] => s
  | x :: l' => forEach_from f (S idx) l' (f s x idx)
  end.

(** [timelineColors]: the object [map] after the [forEach]; a property may
    hold [undefined]. *)
Definition timelineColors (timelines : list string)
    : gmap string (option ColorFamily) :=
  forEach_from (λ map t idx, <[t := getColorFamily idx]> map) 0 timelines ∅.

(** [timelineColors[t] || ['#ccc', '#888', '#555']] *)
Definition fallbackFamily : ColorFamily := ("#ccc", "#888", "#555").

Definition colorOf (colors : gmap string (option ColorFamily)) (t : string)
    : ColorFamily :=
  match colors !! t with
  | Some (Some c) => c
  | _ => fallbackFamily
  end.

(** ** The event handlers (lines 86-138) *)

(** The form written by [handleSubmit] (line 106) and the one written by
    [handleDelete] and the Cancel button (lines 124, 313), which has no
    [notes] property. *)
Definition submittedForm : Form := mkForm "" "" "" "" (Some "").
Definition clearedForm : Form := mkForm "" "" "" "" None.

(** The record [handleSubmit] builds from the form. *)
Definition newMilestone (editingId : option string) (uuidv4 : string) (f : Form)
    : Milestone :=
  {| m_id := or_else editingId uuidv4;
     m_title := f_title f;
     m_timeline := f_timeline f;
     m_start := f_start f;
     m_end := f_end f;
     m_notes := f_notes f |}.

(** [handleSubmit]; [uuidv4] is the value the call [uuidv4()] returns when
    it is evaluated. *)
Definition handleSubmit (uuidv4 : string) (st : AppState) : AppState :=
  let f := form st in
  if negb (truthy (f_title f)) || negb (truthy (f_timeline f))
     || negb (truthy (f_start f)) || negb (truthy (f_end f))
  then st
  else
    let new := newMilestone (editingId st) uuidv4 f in
    {| milestones :=
         (let prev := milestones st in
          if truthy_opt (editingId st)
          then (λ m, if decide (Some (m_id m) = editingId st) then new else m) <$> prev
          else prev ++ [new]);
       form := submittedForm;
       editingId := None;
       hidden := hidden st |}.

Definition handleEdit (m : Milestone) (st : AppState) : AppState :=
  {| milestones := milestones st;
     form := mkForm (m_title m) (m_timeline m) (m_start m) (m_end m) (m_notes m);
     editingId := Some (m_id m);
     hidden := hidden st |}.

Definition handleDelete (id : string) (st : AppState) : AppState :=
  let kept := filter (λ m, m_id m ≠ id) (milestones st) in
  if decide (editingId st = Some id)
  then {| milestones := kept; form := clearedForm; editingId := None;
          hidden := hidden st |}
  else {| milestones := kept; form := form st; editingId := editingId st;
          hidden := hidden st |}.

(** The Cancel button (lines 311-314). *)
Definition handleCancel (st : AppState) : AppState :=
  {| milestones := milestones st; form := clearedForm; editingId := None;
     hidden := hidden st |}.

Definition toggleTimeline (t : string) (st : AppState) : AppState :=
  {| milestones := milestones st;
     form := form st;
     editingId := editingId st;
     hidden := (let prev := hidden st in
                if decide (t ∈ prev) then prev ∖ {[t]} else prev ∪ {[t]}) |}.

(** The [name] attributes of the five inputs. *)
Module FieldName.
Inductive t : Type :=
  | title | timeline | start | end_ | notes.
End FieldName.

#[global] Instance FieldName_eq_dec : EqDecision FieldName.t.
Proof. solve_decision. Defined.

(** [setForm({ ...form, [e.target.name]: e.target.value })] *)
Definition handleFormChange (name : FieldName.t) (value : string) (st : AppState)
    : AppState :=
  let f := form st in
  {| milestones := milestones st;
     form := match name with
             | FieldName.title =>
                 mkForm value (f_timeline f) (f_start f) (f_end f) (f_notes f)
             | FieldName.timeline =>
                 mkForm (f_title f) value (f_start f) (f_end f) (f_notes f)
             | FieldName.start =>
                 mkForm (f_title f) (f_timeline f) value (f_end f) (f_notes f)
             | FieldName.end_ =>
                 mkForm (f_title f) (f_timeline f) (f_start f) value (f_notes f)
             | FieldName.notes =>
                 mkForm (f_title f) (f_timeline f) (f_start f) (f_end f) (Some value)
             end;
     editingId := editingId st;
     hidden := hidden st |}.

(** The state of the first render: the saved collection or [[]], an empty
    form, nothing edited, nothing hidden (lines 54-68). *)
Definition initialState (saved : option (list Milestone)) : AppState :=
  {| milestones := default [] saved;
     form := mkForm "" "" "" "" (Some "");
     editingId := None;
     hidden := ∅ |}.

(** The user actions, and the handler each one runs. *)
Inductive event : Type :=
  | Submit (uuidv4 : string)
  | Edit (m : Milestone)
  | Delete (id : string)
  | Cancel
  | Toggle (t : string)
  | Change (name : FieldName.t) (value : string).

Definition handle (e : event) (st : AppState) : AppState :=
  match e with
  | Submit uuidv4 => handleSubmit uuidv4 st
  | Edit m => handleEdit m st
  | Delete id => handleDelete id st
  | Cancel => handleCancel st
  | Toggle t => toggleTimeline t st
  | Change name value => handleFormChange name value st
  end.

(** ** Plain objects used as dictionaries (lines 141-147)

    [grouped] starts as [{}]: an ordinary object whose prototype is
    [Object.prototype].  Its own properties are kept in creation order. *)
Abbreviation obj V := (list (string * V)).

Fixpoint own_get {V : Type} (o : obj V) (k : string) : option V :=
  match o with
  | [] => None
  | (k', v) :: o' => if decide (k' = k) then Some v else own_get o' k
  end.

(** Writing a property: an existing one keeps its place, a new one is
    created last. *)
Fixpoint own_set {V : Type} (o : obj V) (k : string) (v : V) : obj V :=
  match o with
  | [] => [(k, v)]
  | (k', v') :: o' =>
      if decide (k' = k) then (k, v) :: o' else (k', v') :: own_set o' k v
  end.

(** The property names every [{}] inherits from [Object.prototype].  Each
    reads as a function, or for [__proto__] as the prototype object: a
    truthy value that has no [push] method. *)
Definition Object_prototype_keys : list string :=
  [ "constructor"; "hasOwnProperty"; "isPrototypeOf"; "propertyIsEnumerable";
    "toLocaleString"; "toString"; "valueOf"; "__proto__";
    "__defineGetter__"; "__defineSetter__"; "__lookupGetter__";
    "__lookupSetter__" ].

(** An array index is the canonical decimal numeral of an integer between
    0 and 2^32 - 2: digits only, no leading zero unless it is ["0"]. *)
Definition digit_value (a : ascii) : option N :=
  let n := N_of_ascii a in
  if ((48 <=? n) && (n <=? 57))%N then Some (n - 48)%N else None.

Fixpoint digits_value (acc : N) (s : string) : option N :=
  match s with
  | EmptyString => Some acc
  | String a s' =>
      match digit_value a with
      | Some d => digits_value (10 * acc + d)%N s'
      | None => None
      end
  end.

Definition array_index (s : string) : option N :=
  match s with
  | EmptyString => None
  | String "0" (String _ _) => None
  | _ =>
      match digits_value 0 s with
      | Some n => if (n <? 2 ^ 32 - 1)%N then Some n else None
      | None => None
      end
  end.

(** [Object.entries]: the own properties whose names are array indices
    come first, in ascending numeric order; the others follow in creation
    order. *)
Definition index_entries {V : Type} (o : obj V) : list (N * (string * V)) :=
  omap (λ kv, (λ n, (n, kv)) <$> array_index kv.1) o.

Definition index_le {V : Type} (a b : N * (string * V)) : Prop := (a.1 ≤ b.1)%N.

#[global] Instance index_le_dec {V : Type} (a b : N * (string * V)) :
  Decision (index_le a b).
Proof. unfold index_le. apply _. Defined.

Definition Object_entries {V : Type} (o : obj V) : list (string * V) :=
  (snd <$> merge_sort index_le (index_entries o))
  ++ filter (λ kv, array_index kv.1 = None) o.

(** ** Exceptions *)

Inductive exn : Type :=
  | TypeError.

Inductive result (A : Type) : Type :=
  | Returns (a : A)
  | Throws (e : exn).
Arguments Returns {A} a.
Arguments Throws {A} e.

(** [array.forEach] with a callback that may throw. *)
Fixpoint forEach_result {A St : Type} (f : St → A → result St)
    (l : list A) (s : St) : result St :=
  match l with
  | [] => Returns s
  | x :: l' =>
      match f s x with
      | Returns s' => forEach_result f l' s'
      | Throws e => Throws e
      end
  end.

(** ** The Chart Data Transform (lines 140-179) *)

(** The body of the first [forEach]:
    [if (!grouped[m.timeline]) grouped[m.timeline] = [];
     grouped[m.timeline].push(m);]
    An own property holds an array, which is truthy.  An inherited property
    is truthy too, so nothing is assigned, and calling its missing [push]
    throws a [TypeError]. *)
Definition group_step (grouped : obj (list Milestone)) (m : Milestone)
    : result (obj (list Milestone)) :=
  let key := m_timeline m in
  match own_get grouped key with
  | Some arr => Returns (own_set grouped key (arr ++ [m]))
  | None =>
      if decide (key ∈ Object_prototype_keys) then Throws TypeError
      else Returns (own_set grouped key ([] ++ [m]))
  end.

Record Point : Type := mkPoint {
  p_x : jsnum * jsnum;
  p_y : string;
  p_title : string;
  p_id : string;
}.

(** A dataset of the chart; the constant [datalabels] block is left out. *)
Record Dataset : Type := mkDataset {
  d_label : string;
  d_data : list Point;
  d_backgroundColor : string;
  d_borderColor : string;
  d_borderWidth : Z;
  d_borderRadius : Z;
  d_hidden : bool;
}.

Record ChartData : Type := mkChartData {
  labels : list string;
  datasets : list Dataset;
}.

Section Chart.

(** [parseISO] of date-fns: the [Date] a string parses to, an Invalid Date
    when it does not parse. *)
Variable parseISO : string → Date.

Definition mkPointOf (timeline : string) (m : Milestone) : Point :=
  {| p_x := (getTime (parseISO (m_start m)), getTime (parseISO (m_end m)));
     p_y := timeline;
     p_title := m_title m;
     p_id := m_id m |}.

Definition mkDatasetOf (colors : gmap string (option ColorFamily))
    (hidden : gset string) (entry : string * list Milestone) : Dataset :=
  let '(timeline, ms) := entry in
  let '(light, mid, dark) := colorOf colors timeline in
  {| d_label := timeline;
     d_data := mkPointOf timeline <$> ms;
     d_backgroundColor := mid;
     d_borderColor := dark;
     d_borderWidth := 1;
     d_borderRadius := 4;
     d_hidden := bool_decide (timeline ∈ hidden) |}.

Definition chartData (milestones : list Milestone) (hidden : gset string)
    : result ChartData :=
  let index := timelines milestones in
  let colors := timelineColors index in
  match forEach_result group_step milestones [] with
  | Throws e => Throws e
  | Returns grouped =>
      Returns {| labels := index;
                 datasets := mkDatasetOf colors hidden <$> Object_entries grouped |}
  end.

End Chart.

(** ** The rendered view (lines 230-340) *)

(** A filter chip: the [key], the three style properties that depend on
    the state, and the text of the button. *)
Record Chip : Type := mkChip {
  c_key : string;
  c_border : string;
  c_background : string;
  c_color : string;
  c_text : string;
}.

(** The body of [timelines.map(t => ...)] (lines 236-257). *)
Definition filterChip (colors : gmap string (option ColorFamily))
    (hidden : gset string) (t : string) : Chip :=
  let '(light, mid, dark) := colorOf colors t in
  let isHidden := bool_decide (t ∈ hidden) in
  {| c_key := t;
     c_border := ("1px solid " ++ dark)%string;
     c_background := if isHidden then "#fff" else light;
     c_color := dark;
     c_text := ((if isHidden then "Show" else "Hide") ++ " " ++ t)%string |}.

(** The value of [timelines.map(t => ...)].  The expression stands in the
    [return] of [App] (line 230), so it is evaluated only in a render
    whose [chartData] memo has returned: see [App] below. *)
Definition filterChips (st : AppState) : list Chip :=
  let index := timelines (milestones st) in
  filterChip (timelineColors index) (hidden st) <$> index.

(** The heading of the form, the text of its button, and whether the
    Cancel button is rendered (lines 267, 308, 309). *)
Definition formHeading (st : AppState) : string :=
  if truthy_opt (editingId st) then "Edit Milestone" else "Add Milestone".

Definition submitLabel (st : AppState) : string :=
  if truthy_opt (editingId st) then "Update" else "Add".

Definition cancelShown (st : AppState) : bool := truthy_opt (editingId st).

(** What one render of [App] hands to React: the chips, the data of the
    [Bar] chart, the heading and the button of the form, whether Cancel is
    there, and one list item per milestone in stored order (lines 326-336),
    given by the milestone it displays and whose id is its [key]. *)
Record View : Type := mkView {
  v_chips : list Chip;
  v_chart : ChartData;
  v_heading : string;
  v_submit : string;
  v_cancel : bool;
  v_items : list Milestone;
}.

(** One render of [App] (lines 53-341) in a given state.  The memos are
    computed in the body, before the [return]: when [chartData] throws,
    the render throws and none of the JSX is evaluated. *)
Definition App (parseISO : string → Date) (st : AppState) : result View :=
  match chartData parseISO (milestones st) (hidden st) with
  | Throws e => Throws e
  | Returns data =>
      Returns {| v_chips := filterChips st;
                 v_chart := data;
                 v_heading := formHeading st;
                 v_submit := submitLabel st;
                 v_cancel := cancelShown st;
                 v_items := milestones st |}
  end.

(** * The vocabulary of the properties *)

(** The spec's wording of the algorithm, kept apart from the code: scan in
    order, collect a value the first time it is seen, skip it afterwards. *)
Fixpoint first_seen_from (seen : list string) (l : list string) : list string :=
  match l with
  | [] => []
  | x :: l' =>
      if decide (x ∈ seen) then first_seen_from seen l'
      else x :: first_seen_from (x :: seen) l'
  end.

Definition first_seen (l : list string) : list string := first_seen_from [] l.

(** The milestones of one timeline, in stored order. *)
Definition group_of (ms : list Milestone) (t : string) : list Milestone :=
  filter (λ m, m_timeline m = t) ms.

(** One property per timeline of the index, created in index order. *)
Definition grouping_of (ms : list Milestone) : obj (list Milestone) :=
  (λ t, (t, group_of ms t)) <$> timelines ms.

Definition good_key (m : Milestone) : Prop :=
  m_timeline m ∉ Object_prototype_keys.

Definition ordinary_key (k : string) : Prop := array_index k = None.

#[global] Instance ordinary_key_dec k : Decision (ordinary_key k).
Proof. unfold ordinary_key. apply _. Defined.

(** The datasets the transform emits when the grouping loop completes. *)
Definition datasets_of (parseISO : string → Date) (ms : list Milestone)
    (h : gset string) : list Dataset :=
  mkDatasetOf parseISO (timelineColors (timelines ms)) h
    <$> Object_entries (grouping_of ms).

Definition form_complete (f : Form) : Prop :=
  f_title f ≠ "" ∧ f_timeline f ≠ "" ∧ f_start f ≠ "" ∧ f_end f ≠ "".

(** A sequence of changes typed into the inputs of the form. *)
Definition typing (st : AppState) (events : list (FieldName.t * string)) : AppState :=
  foldl (λ s e, handleFormChange e.1 e.2 s) st events.

(** ** The states the component can reach

    Ids are distinct and non-empty, and the id being edited is the id of a
    stored record: every handler keeps this, provided [uuidv4] returns a
    non-empty id that is not in use and the record handed to [handleEdit]
    is one of the list. *)
Definition event_ok (st : AppState) (e : event) : Prop :=
  match e with
  | Submit uuidv4 => uuidv4 ≠ "" ∧ uuidv4 ∉ m_id <$> milestones st
  | Edit m => m ∈ milestones st
  | _ => True
  end.

Definition wf_state (st : AppState) : Prop :=
  NoDup (m_id <$> milestones st)
  ∧ Forall (λ m, m_id m ≠ "") (milestones st)
  ∧ ∀ id, editingId st = Some id → id ∈ m_id <$> milestones st.

(** A run of events from a state; [run_ok] asks every event to be
    admissible in the state it meets. *)
Fixpoint run (es : list event) (st : AppState) : AppState :=
  match es with
  | [] => st
  | e :: es' => run es' (handle e st)
  end.

Fixpoint run_ok (es : list event) (st : AppState) : Prop :=
  match es with
  | [] => True
  | e :: es' => event_ok st e ∧ run_ok es' (handle e st)
  end.

(** Which user actions are chip clicks, and which can change the
    collection. *)
Definition is_toggle (e : event) : bool :=
  match e with
  | Toggle _ => true
  | _ => false
  end.

Definition changes_collection (e : event) : bool :=
  match e with
  | Submit _ | Delete _ => true
  | _ => false
  end.

(** Numeric order on the names that are array indices. *)
Definition key_le (a b : string) : Prop :=
  match array_index a, array_index b with
  | Some x, Some y => (x ≤ y)%N
  | _, _ => True
  end.

(** ** A date parser to run the transform with

    [parseISO] belongs to date-fns.  The examples below are run with its
    behaviour on complete calendar dates [YYYY-MM-DD] in a UTC time zone:
    midnight of a date that exists, and an Invalid Date for a date that
    does not exist.  The examples use no other shape of date string;
    anything else is given an Invalid Date here. *)
Definition ascii_digit (a : ascii) : option Z :=
  Z.of_N <$> digit_value a.

Definition number_of (digits : list ascii) : option Z :=
  foldl (λ acc a, n ← acc; d ← ascii_digit a; Some (10 * n + d)%Z) (Some 0%Z) digits.

Definition calendar_fields (s : string) : option (Z * Z * Z) :=
  match list_ascii_of_string s with
  | [y1; y2; y3; y4; dash1; m1; m2; dash2; d1; d2] =>
      if decide (dash1 = "-"%char ∧ dash2 = "-"%char)
      then y ← number_of [y1; y2; y3; y4];
           m ← number_of [m1; m2];
           d ← number_of [d1; d2];
           Some (y, m, d)
      else None
  | _ => None
  end.

Definition leap_year (y : Z) : bool :=
  ((y mod 4 =? 0) && (negb (y mod 100 =? 0) || (y mod 400 =? 0)))%Z.

Definition days_in_month (y m : Z) : Z :=
  if (m =? 2)%Z then (if leap_year y then 29 else 28)%Z
  else if ((m =? 4) || (m =? 6) || (m =? 9) || (m =? 11))%Z then 30%Z
  else 31%Z.

(** Days from 1970-01-01 to the given civil date. *)
Definition days_from_civil (y m d : Z) : Z :=
  let y' := (if m <=? 2 then y - 1 else y)%Z in
  let era := (y' / 400)%Z in
  let yoe := (y' - era * 400)%Z in
  let doy := ((153 * (if m >? 2 then m - 3 else m + 9) + 2) / 5 + d - 1)%Z in
  let doe := (yoe * 365 + yoe / 4 - yoe / 100 + doy)%Z in
  (era * 146097 + doe - 719468)%Z.

Definition parseISO_utc (s : string) : Date :=
  match calendar_fields s with
  | Some (y, m, d) =>
      if ((1 <=? m) && (m <=? 12) && (1 <=? d) && (d <=? days_in_month y m))%Z
      then Num (days_from_civil y m d * 86400000)
      else NaN
  | None => NaN
  end.

(** ** Sample data *)

Definition set_timeline (t : string) (m : Milestone) : Milestone :=
  {| m_id := m_id m; m_title := m_title m; m_timeline := t;
     m_start := m_start m; m_end := m_end m; m_notes := m_notes m |}.

Definition six_timelines : list Milestone :=
  (λ t, mkMilestone t "Milestone" t "2020-01-01" "2020-12-31" (Some ""))
    <$> ["Zeta"; "Epsilon"; "Delta"; "Gamma"; "Beta"; "Alpha"].

(** The two milestones of the spec's example scenario. *)
Definition sample_collection : list Milestone :=
  [ mkMilestone "id-1" "Graduate" "Education" "2010-06-01" "2010-06-01" (Some "");
    mkMilestone "id-2" "First Job" "Career" "2010-07-01" "2015-01-01" (Some "") ].

Definition sample_form : Form :=
  mkForm "Promotion" "Career" "2012-03-01" "2012-03-01" (Some "team lead").

(** A timeline named by a year, and one named like a property of
    [Object.prototype]. *)
Definition year_named : list Milestone :=
  [ mkMilestone "id-1" "Job" "Work" "2019-01-01" "2019-12-31" (Some "");
    mkMilestone "id-2" "Sabbatical" "2020" "2020-01-01" "2020-12-31" (Some "") ].

Definition prototype_named : list Milestone :=
  [ mkMilestone "id-1" "Job" "Work" "2019-01-01" "2019-12-31" (Some "");
    mkMilestone "id-3" "House" "constructor" "2021-01-01" "2021-12-31" (Some "") ].

(** A start that is no date. *)
Definition undated : Milestone :=
  mkMilestone "id-1" "Graduate" "Education" "soon" "2010-06-01" (Some "").

(** A session from the first render: a record is added, then edited,
    then its timeline is hidden. *)
Definition sample_session : list event :=
  [ Change FieldName.title "Graduate"; Change FieldName.timeline "Education";
    Change FieldName.start "2010-06-01"; Change FieldName.end_ "2010-06-01";
    Submit "id-1";
    Edit (mkMilestone "id-1" "Graduate" "Education" "2010-06-01" "2010-06-01"
            (Some ""));
    Change FieldName.title "Graduation"; Submit "unused";
    Toggle "Education" ].

(** * Lemmas *)

Lemma truthy_true s : truthy s = true ↔ s ≠ "".
Proof. destruct s; simpl; split; congruence. Qed.

Lemma truthy_false s : truthy s = false ↔ s = "".
Proof. destruct s; simpl; split; congruence. Qed.

(** ** The ordered set and the Timeline Index *)

Lemma Set_add_prefix s x : s `prefix_of` Set_add s x.
Proof.
  unfold Set_add. case_decide; [done|]. by apply prefix_app_r.
Qed.

Lemma foldl_Set_add_prefix l acc : acc `prefix_of` foldl Set_add acc l.
Proof.
  revert acc. induction l as [|x l IH]; intros acc; simpl; [done|].
  etrans; [apply Set_add_prefix|apply IH].
Qed.

Lemma elem_of_Set_add s x y : y ∈ Set_add s x ↔ y ∈ s ∨ y = x.
Proof.
  unfold Set_add. case_decide; set_solver.
Qed.

Lemma elem_of_foldl_Set_add l acc y :
  y ∈ foldl Set_add acc l ↔ y ∈ acc ∨ y ∈ l.
Proof.
  revert acc. induction l as [|x l IH]; intros acc; simpl.
  - set_solver.
  - rewrite IH, elem_of_Set_add. set_solver.
Qed.

Lemma NoDup_Set_add s x : NoDup s → NoDup (Set_add s x).
Proof.
  intros Hs. unfold Set_add. case_decide; [done|].
  apply NoDup_app. split_and!; [done|set_solver|apply NoDup_singleton].
Qed.

Lemma NoDup_foldl_Set_add l acc : NoDup acc → NoDup (foldl Set_add acc l).
Proof.
  revert acc. induction l as [|x l IH]; intros acc Hacc; simpl; [done|].
  by apply IH, NoDup_Set_add.
Qed.

Lemma elem_of_new_Set l y : y ∈ new_Set l ↔ y ∈ l.
Proof. unfold new_Set. rewrite elem_of_foldl_Set_add. set_solver. Qed.

Lemma NoDup_new_Set l : NoDup (new_Set l).
Proof. apply NoDup_foldl_Set_add, NoDup_nil_2. Qed.

Lemma new_Set_snoc l x : new_Set (l ++ [x]) = Set_add (new_Set l) x.
Proof. unfold new_Set. by rewrite foldl_app. Qed.

(** The fold of the code against the scan of the spec, for any set of
    values already seen. *)
Lemma foldl_Set_add_first_seen (l acc seen : list string) :
  (∀ y, y ∈ seen ↔ y ∈ acc) →
  foldl Set_add acc l = acc ++ first_seen_from seen l.
Proof.
  revert acc seen. induction l as [|x l IH]; intros acc seen Hseen; simpl.
  - by rewrite app_nil_r.
  - unfold Set_add at 2. destruct (decide (x ∈ seen)) as [Hin|Hin].
    + rewrite decide_True by (by apply Hseen). by apply IH.
    + rewrite decide_False by (by rewrite <- Hseen).
      rewrite (IH (acc ++ [x]) (x :: seen)).
      * by rewrite <- app_assoc.
      * intros y. rewrite elem_of_cons, elem_of_app, list_elem_of_singleton, Hseen.
        tauto.
Qed.

Lemma timelines_first_seen ms : timelines ms = first_seen (m_timeline <$> ms).
Proof.
  unfold timelines, Array_from, new_Set, first_seen.
  by rewrite (foldl_Set_add_first_seen _ [] []).
Qed.

Lemma NoDup_timelines ms : NoDup (timelines ms).
Proof. apply NoDup_new_Set. Qed.

Lemma elem_of_timelines ms t : t ∈ timelines ms ↔ t ∈ m_timeline <$> ms.
Proof. apply elem_of_new_Set. Qed.

Lemma timelines_snoc ms m :
  timelines (ms ++ [m]) = Set_add (timelines ms) (m_timeline m).
Proof. unfold timelines, Array_from. rewrite fmap_app. apply new_Set_snoc. Qed.

Lemma timelines_app_prefix ms1 ms2 :
  timelines ms1 `prefix_of` timelines (ms1 ++ ms2).
Proof.
  unfold timelines, Array_from, new_Set. rewrite fmap_app, foldl_app.
  apply foldl_Set_add_prefix.
Qed.

(** ** The colour assignment *)

Lemma getColorFamily_is_Some index : is_Some (getColorFamily index).
Proof.
  unfold getColorFamily. apply lookup_lt_is_Some.
  apply Nat.mod_upper_bound. simpl. lia.
Qed.

Section forEach_colors.
Let assign (map : gmap string (option ColorFamily)) (t : string) (idx : nat) :=
  <[t := getColorFamily idx]> map.

Lemma forEach_assign_other ts k map t :
  t ∉ ts → forEach_from assign k ts map !! t = map !! t.
Proof.
  revert k map. induction ts as [|t' ts IH]; intros k map Hnotin; simpl; [done|].
  apply not_elem_of_cons in Hnotin as [Hne Hnotin].
  rewrite IH by done. unfold assign. by rewrite lookup_insert_ne.
Qed.

Lemma forEach_assign_lookup ts k map i t :
  NoDup ts → ts !! i = Some t →
  forEach_from assign k ts map !! t = Some (getColorFamily (k + i)).
Proof.
  revert k map i. induction ts as [|t' ts IH]; intros k map i Hnd Hi; [done|].
  apply NoDup_cons in Hnd as [Hnotin Hnd]. destruct i as [|i]; simpl in *.
  - injection Hi as ->. rewrite forEach_assign_other by done.
    unfold assign. rewrite lookup_insert_eq. by rewrite Nat.add_0_r.
  - rewrite (IH (S k) _ i) by done. do 2 f_equal. lia.
Qed.
End forEach_colors.

Lemma timelineColors_lookup ts i t :
  NoDup ts → ts !! i = Some t →
  timelineColors ts !! t = Some (getColorFamily i).
Proof. intros Hnd Hi. unfold timelineColors. by erewrite forEach_assign_lookup. Qed.

(** ** The handlers *)

Lemma handleSubmit_guard_rejects uuid st :
  f_title (form st) = "" ∨ f_timeline (form st) = ""
  ∨ f_start (form st) = "" ∨ f_end (form st) = "" →
  handleSubmit uuid st = st.
Proof.
  intros H. unfold handleSubmit. cbv zeta.
  destruct H as [H|[H|[H|H]]]; rewrite H; simpl;
    by rewrite ?orb_true_r.
Qed.

Lemma handleSubmit_guard_passes uuid st :
  form_complete (form st) →
  handleSubmit uuid st
  = {| milestones :=
         if truthy_opt (editingId st)
         then (λ m, if decide (Some (m_id m) = editingId st)
                    then newMilestone (editingId st) uuid (form st) else m)
                <$> milestones st
         else milestones st ++ [newMilestone (editingId st) uuid (form st)];
       form := submittedForm;
       editingId := None;
       hidden := hidden st |}.
Proof.
  intros (Ht & Hl & Hs & He). unfold handleSubmit. cbv zeta.
  apply truthy_true in Ht, Hl, Hs, He. by rewrite Ht, Hl, Hs, He.
Qed.

(** Replacing by id in a list whose ids are distinct is an update in place. *)
Lemma fmap_replace_by_id (l : list Milestone) (i : nat) (m new : Milestone) :
  NoDup (m_id <$> l) → l !! i = Some m →
  (λ x, if decide (Some (m_id x) = Some (m_id m)) then new else x) <$> l
  = <[i := new]> l.
Proof.
  revert i. induction l as [|x l IH]; intros i Hnd Hi; [done|].
  rewrite fmap_cons in Hnd. apply NoDup_cons in Hnd as [Hx Hnd].
  destruct i as [|i]; simpl in Hi.
  - injection Hi as ->. rewrite fmap_cons. rewrite decide_True by done.
    simpl. f_equal. rewrite <- (list_fmap_id l) at 2.
    apply list_fmap_ext. intros j y Hj. rewrite decide_False; [done|].
    intros [= Heq]. apply Hx. rewrite <- Heq.
    apply list_elem_of_fmap. exists y. split; [done|].
    by eapply list_elem_of_lookup_2.
  - rewrite fmap_cons. rewrite decide_False.
    + simpl. f_equal. by apply IH.
    + intros [= Heq]. apply Hx. rewrite Heq.
      apply list_elem_of_fmap. exists m. split; [done|].
      by eapply list_elem_of_lookup_2.
Qed.


Lemma fmap_replace_ids (l : list Milestone) (id : string) (new : Milestone) :
  m_id new = id →
  m_id <$> ((λ x, if decide (Some (m_id x) = Some id) then new else x) <$> l)
  = m_id <$> l.
Proof.
  intros Hnew. rewrite <- list_fmap_compose. apply list_fmap_ext.
  intros i x _. simpl. case_decide as Hx; [|done]. injection Hx as ->. done.
Qed.

Lemma typing_frame st events :
  milestones (typing st events) = milestones st
  ∧ editingId (typing st events) = editingId st
  ∧ hidden (typing st events) = hidden st.
Proof.
  revert st. induction events as [|e events IH]; intros st; [done|].
  unfold typing in *. cbn [foldl].
  destruct (IH (handleFormChange e.1 e.2 st)) as (-> & -> & ->). done.
Qed.

(** ** The reachable states *)

Lemma wf_state_initial : wf_state (initialState None).
Proof.
  split_and!; [apply NoDup_nil_2|apply Forall_nil_2|done].
Qed.

Lemma wf_state_handleSubmit uuid st :
  wf_state st → uuid ≠ "" → uuid ∉ m_id <$> milestones st →
  wf_state (handleSubmit uuid st).
Proof.
  intros (Hnd & Hne & Hed) Hu Hfresh. unfold handleSubmit. cbv zeta.
  destruct (negb _ || _ || _ || _); [done|].
  unfold wf_state. cbn [milestones editingId].
  destruct (editingId st) as [id|] eqn:He; cbn [truthy_opt].
  - specialize (Hed id eq_refl).
    assert (id ≠ "") as Hid.
    { apply list_elem_of_fmap in Hed as (m & -> & Hm).
      rewrite Forall_forall in Hne. by apply Hne. }
    apply truthy_true in Hid as Htr. rewrite Htr.
    assert (m_id (newMilestone (Some id) uuid (form st)) = id) as Hnew.
    { unfold newMilestone, or_else. cbn [m_id]. by rewrite Htr. }
    rewrite fmap_replace_ids by done. split_and!; [done| |done].
    apply Forall_fmap. eapply Forall_impl; [exact Hne|].
    intros m Hm. simpl. case_decide; [by rewrite Hnew|done].
  - rewrite fmap_app. split_and!; [| |done].
    + apply NoDup_app. split_and!; [done| |apply NoDup_singleton].
      intros x Hx Hx'. apply list_elem_of_singleton in Hx'. by subst.
    + apply Forall_app. split; [done|]. by apply Forall_singleton.
Qed.

Lemma wf_state_handleDelete id st : wf_state st → wf_state (handleDelete id st).
Proof.
  intros (Hnd & Hne & Hed).
  assert (NoDup (m_id <$> filter (λ m, m_id m ≠ id) (milestones st))) as Hnd'.
  { eapply sublist_NoDup; [exact Hnd|]. apply fmap_sublist, sublist_filter. }
  assert (Forall (λ m, m_id m ≠ "") (filter (λ m, m_id m ≠ id) (milestones st)))
    as Hne'.
  { apply Forall_forall. intros m [_ Hm]%list_elem_of_filter.
    rewrite Forall_forall in Hne. by apply Hne. }
  unfold handleDelete. cbv zeta. case_decide as He.
  - split_and!; [done..|]. intros id'. cbn [editingId]. done.
  - split_and!; [done..|]. intros id' He'. cbn [editingId milestones] in *.
    apply Hed in He' as Hin. apply list_elem_of_fmap in Hin as (m & -> & Hm).
    apply list_elem_of_fmap_2, list_elem_of_filter. split; [|done].
    intros Heq. apply He. by rewrite He', Heq.
Qed.

(** Every handler keeps the state well formed. *)
Lemma wf_state_handle e st :
  wf_state st → event_ok st e → wf_state (handle e st).
Proof.
  intros Hwf Hok. destruct e as [uuid|m|id| |t|name value]; simpl in *.
  - destruct Hok. by apply wf_state_handleSubmit.
  - destruct Hwf as (Hnd & Hne & _). split_and!; [done..|].
    intros id [= <-]. by apply list_elem_of_fmap_2.
  - by apply wf_state_handleDelete.
  - destruct Hwf as (Hnd & Hne & _). split_and!; done.
  - exact Hwf.
  - exact Hwf.
Qed.

Lemma wf_state_run es st : wf_state st → run_ok es st → wf_state (run es st).
Proof.
  revert st. induction es as [|e es IH]; intros st Hwf Hok; [done|].
  destruct Hok as [He Hes]. simpl. apply IH; [|done]. by apply wf_state_handle.
Qed.

(** In a reachable state the id being edited is never dangling and never
    empty, so a submit in edit mode always finds its record. *)
Lemma wf_state_editing st id :
  wf_state st → editingId st = Some id →
  id ≠ "" ∧ ∃ i m, milestones st !! i = Some m ∧ m_id m = id.
Proof.
  intros (_ & Hne & Hed) He. apply Hed in He as Hin.
  apply list_elem_of_fmap in Hin as (m & -> & Hm). split.
  - rewrite Forall_forall in Hne. by apply Hne.
  - apply list_elem_of_lookup in Hm as [i Hi]. by exists i, m.
Qed.


(** ** What the grouping loop computes *)

Lemma own_get_fmap {V : Type} (F : string → V) (l : list string) k :
  own_get ((λ t, (t, F t)) <$> l) k = if decide (k ∈ l) then Some (F k) else None.
Proof.
  induction l as [|t l IH].
  - destruct (decide (k ∈ [])) as [H|H]; [by apply elem_of_nil in H|done].
  - rewrite fmap_cons. cbn [own_get]. destruct (decide (t = k)) as [->|Hne].
    + by rewrite decide_True by set_solver.
    + rewrite IH. destruct (decide (k ∈ l)).
      * by rewrite decide_True by set_solver.
      * by rewrite decide_False by set_solver.
Qed.

Lemma own_set_fmap_new {V : Type} (F : string → V) (l : list string) k v :
  k ∉ l →
  own_set ((λ t, (t, F t)) <$> l) k v = ((λ t, (t, F t)) <$> l) ++ [(k, v)].
Proof.
  induction l as [|t l IH]; intros Hk; [done|].
  apply not_elem_of_cons in Hk as [Hne Hk].
  rewrite fmap_cons. cbn [own_set].
  rewrite decide_False by done. by rewrite IH.
Qed.

Lemma own_set_fmap_old {V : Type} (F G : string → V) (l : list string) k :
  NoDup l → k ∈ l → (∀ t, t ∈ l → t ≠ k → G t = F t) →
  own_set ((λ t, (t, F t)) <$> l) k (G k) = (λ t, (t, G t)) <$> l.
Proof.
  induction l as [|t l IH]; intros Hnd Hk Hext; [by apply elem_of_nil in Hk|].
  apply NoDup_cons in Hnd as [Hnotin Hnd]. rewrite !fmap_cons. cbn [own_set].
  destruct (decide (t = k)) as [->|Hne].
  - f_equal. apply list_fmap_ext. intros i t Hi.
    assert (t ∈ l) as Ht by (by eapply list_elem_of_lookup_2).
    rewrite Hext; [done| |].
    + apply elem_of_cons. by right.
    + intros ->. done.
  - rewrite (Hext t) by (done || apply list_elem_of_here).
    f_equal. apply IH; [done| |].
    + apply elem_of_cons in Hk as [->|Hk]; done.
    + intros t' Ht' Hne'. apply Hext; [|done]. by apply list_elem_of_further.
Qed.

Lemma group_of_snoc ms m t :
  group_of (ms ++ [m]) t
  = if decide (m_timeline m = t) then group_of ms t ++ [m] else group_of ms t.
Proof.
  unfold group_of. rewrite filter_app. rewrite (filter_cons _ m), filter_nil.
  case_decide; [done|]. by rewrite app_nil_r.
Qed.

Lemma group_of_not_elem ms t : t ∉ timelines ms → group_of ms t = [].
Proof.
  rewrite elem_of_timelines. intros Ht. unfold group_of.
  induction ms as [|m ms IH]; [done|].
  rewrite fmap_cons in Ht. apply not_elem_of_cons in Ht as [Hne Ht].
  rewrite filter_cons. rewrite decide_False by done. by apply IH.
Qed.

Lemma group_step_grouping ms m :
  m_timeline m ∉ Object_prototype_keys →
  group_step (grouping_of ms) m = Returns (grouping_of (ms ++ [m])).
Proof.
  intros Hkey. unfold group_step, grouping_of. rewrite own_get_fmap.
  rewrite timelines_snoc. unfold Set_add.
  destruct (decide (m_timeline m ∈ timelines ms)) as [Hin|Hnotin].
  - f_equal.
    rewrite <- (own_set_fmap_old (group_of ms) (group_of (ms ++ [m]))
                  (timelines ms) (m_timeline m)).
    + rewrite group_of_snoc. by rewrite decide_True.
    + apply NoDup_timelines.
    + done.
    + intros t _ Hne. rewrite group_of_snoc. by rewrite decide_False.
  - rewrite decide_False by done. f_equal.
    rewrite own_set_fmap_new by done. rewrite fmap_app. simpl.
    rewrite group_of_snoc, decide_True by done.
    rewrite (group_of_not_elem ms (m_timeline m)) by done.
    f_equal. apply list_fmap_ext. intros i t Hi.
    rewrite group_of_snoc. rewrite decide_False; [done|].
    intros Heq. apply Hnotin. rewrite Heq. by eapply list_elem_of_lookup_2.
Qed.

Lemma group_step_throws ms m :
  Forall (λ m', m_timeline m' ∉ Object_prototype_keys) ms →
  m_timeline m ∈ Object_prototype_keys →
  group_step (grouping_of ms) m = Throws TypeError.
Proof.
  intros Hms Hkey. unfold group_step, grouping_of. rewrite own_get_fmap.
  rewrite decide_False.
  - by rewrite decide_True.
  - rewrite elem_of_timelines, list_elem_of_fmap. intros (m' & Heq & Hm').
    rewrite Forall_forall in Hms. apply (Hms m' Hm'). by rewrite <- Heq.
Qed.

Lemma forEach_group_returns ms1 ms2 :
  Forall (λ m, m_timeline m ∉ Object_prototype_keys) ms2 →
  forEach_result group_step ms2 (grouping_of ms1)
  = Returns (grouping_of (ms1 ++ ms2)).
Proof.
  revert ms1. induction ms2 as [|m ms2 IH]; intros ms1 Hok; simpl.
  - by rewrite app_nil_r.
  - apply Forall_cons in Hok as [Hm Hok].
    rewrite group_step_grouping by done. rewrite IH by done.
    by rewrite <- app_assoc.
Qed.

Lemma forEach_group_throws ms1 ms2 :
  Forall (λ m, m_timeline m ∉ Object_prototype_keys) ms1 →
  Exists (λ m, m_timeline m ∈ Object_prototype_keys) ms2 →
  forEach_result group_step ms2 (grouping_of ms1) = Throws TypeError.
Proof.
  revert ms1. induction ms2 as [|m ms2 IH]; intros ms1 Hok Hbad; simpl.
  - by apply Exists_nil in Hbad.
  - destruct (decide (m_timeline m ∈ Object_prototype_keys)) as [Hm|Hm].
    + by rewrite group_step_throws.
    + rewrite group_step_grouping by done. apply IH.
      * apply Forall_app. split; [done|]. by apply Forall_singleton.
      * apply Exists_cons in Hbad as [?|?]; done.
Qed.

(** ** What [Object.entries] does to the creation order *)

Lemma index_entries_cons {V : Type} (kv : string * V) (o : obj V) :
  index_entries (kv :: o)
  = match array_index kv.1 with
    | Some n => (n, kv) :: index_entries o
    | None => index_entries o
    end.
Proof. unfold index_entries. simpl. by destruct (array_index kv.1). Qed.

Lemma index_entries_ordinary {V : Type} (o : obj V) :
  Forall (λ kv, ordinary_key kv.1) o → index_entries o = [].
Proof.
  induction 1 as [|kv o Hkv _ IH]; [done|].
  rewrite index_entries_cons. unfold ordinary_key in Hkv. by rewrite Hkv.
Qed.

(** Without array-index names, [Object.entries] is the creation order. *)
Lemma Object_entries_ordinary {V : Type} (o : obj V) :
  Forall (λ kv, ordinary_key kv.1) o → Object_entries o = o.
Proof.
  intros Ho. unfold Object_entries. rewrite index_entries_ordinary by done.
  match goal with |- _ ++ ?kept = _ => change (kept = o) end.
  induction Ho as [|kv o Hkv _ IH]; [done|].
  rewrite filter_cons. rewrite decide_True by done. by rewrite IH.
Qed.

Lemma index_entries_split {V : Type} (o : obj V) :
  (snd <$> index_entries o) ++ filter (λ kv, array_index kv.1 = None) o ≡ₚ o.
Proof.
  induction o as [|kv o IH]; [done|].
  rewrite index_entries_cons, filter_cons. case_decide as Hkv.
  - rewrite Hkv. rewrite <- Permutation_middle. by rewrite IH.
  - destruct (array_index kv.1) as [n|]; [|done]. simpl. by rewrite IH.
Qed.

(** In every case it only reorders the properties. *)
Lemma Object_entries_Permutation {V : Type} (o : obj V) :
  Object_entries o ≡ₚ o.
Proof.
  unfold Object_entries. rewrite merge_sort_Permutation.
  apply index_entries_split.
Qed.

(** ** What the transform returns *)

Section ChartFacts.
Variable parseISO : string → Date.

Lemma chartData_returns ms h :
  Forall good_key ms →
  chartData parseISO ms h
  = Returns {| labels := timelines ms; datasets := datasets_of parseISO ms h |}.
Proof.
  intros Hok. unfold chartData.
  change (@nil (string * list Milestone)) with (grouping_of []).
  by rewrite forEach_group_returns.
Qed.

Lemma chartData_throws ms h :
  Exists (λ m, ¬ good_key m) ms →
  chartData parseISO ms h = Throws TypeError.
Proof.
  intros Hbad. unfold chartData.
  change (@nil (string * list Milestone)) with (grouping_of []).
  rewrite forEach_group_throws; [done|done|].
  eapply Exists_impl; [done|]. intros m Hm. unfold good_key in Hm.
  by destruct (decide (m_timeline m ∈ Object_prototype_keys)).
Qed.

Lemma d_label_mkDatasetOf colors h entry :
  d_label (mkDatasetOf parseISO colors h entry) = entry.1.
Proof. destruct entry as [t ms]. simpl. by destruct (colorOf colors t) as [[? ?] ?]. Qed.

Lemma d_data_mkDatasetOf colors h entry :
  d_data (mkDatasetOf parseISO colors h entry)
  = mkPointOf parseISO entry.1 <$> entry.2.
Proof. destruct entry as [t ms]. simpl. by destruct (colorOf colors t) as [[? ?] ?]. Qed.

Lemma d_hidden_mkDatasetOf colors h entry :
  d_hidden (mkDatasetOf parseISO colors h entry) = bool_decide (entry.1 ∈ h).
Proof. destruct entry as [t ms]. simpl. by destruct (colorOf colors t) as [[? ?] ?]. Qed.

Lemma datasets_of_labels_Permutation ms h :
  d_label <$> datasets_of parseISO ms h ≡ₚ timelines ms.
Proof.
  unfold datasets_of. rewrite <- list_fmap_compose.
  rewrite (list_fmap_ext _ fst (Object_entries (grouping_of ms))).
  - rewrite Object_entries_Permutation. unfold grouping_of.
    rewrite <- list_fmap_compose. by rewrite list_fmap_id.
  - intros i entry _. apply d_label_mkDatasetOf.
Qed.

End ChartFacts.

Section DatasetFacts.
Variable parseISO : string → Date.

Lemma Forall_good_key_dec ms :
  {Forall good_key ms} + {Exists (λ m, ¬ good_key m) ms}.
Proof.
  apply Forall_Exists_dec. intros m. unfold good_key.
  destruct (decide (m_timeline m ∈ Object_prototype_keys)); [right|left]; tauto.
Defined.

(** The transform returns exactly when no timeline is named after a
    property of [Object.prototype], and then returns this. *)
Lemma chartData_Returns_inv ms h cd :
  chartData parseISO ms h = Returns cd →
  Forall good_key ms
  ∧ cd = {| labels := timelines ms; datasets := datasets_of parseISO ms h |}.
Proof.
  intros Hcd. destruct (Forall_good_key_dec ms) as [Hok|Hbad].
  - split; [done|]. rewrite chartData_returns in Hcd by done. congruence.
  - rewrite chartData_throws in Hcd by done. discriminate.
Qed.

Lemma elem_of_grouping_of ms t :
  t ∈ timelines ms → (t, group_of ms t) ∈ Object_entries (grouping_of ms).
Proof.
  intros Ht. rewrite Object_entries_Permutation. unfold grouping_of.
  apply list_elem_of_fmap. by exists t.
Qed.

Lemma elem_of_Object_entries_grouping ms entry :
  entry ∈ Object_entries (grouping_of ms) →
  entry.1 ∈ timelines ms ∧ entry.2 = group_of ms entry.1.
Proof.
  rewrite Object_entries_Permutation. unfold grouping_of.
  intros (t & -> & Ht)%list_elem_of_fmap. done.
Qed.

Lemma elem_of_group_of ms m : m ∈ ms → m ∈ group_of ms (m_timeline m).
Proof. intros Hm. unfold group_of. by apply list_elem_of_filter. Qed.

(** The points of a dataset are its milestones in stored order. *)
Lemma datasets_of_data ms h ds :
  ds ∈ datasets_of parseISO ms h →
  d_label ds ∈ timelines ms
  ∧ d_data ds = mkPointOf parseISO (d_label ds) <$> group_of ms (d_label ds)
  ∧ d_hidden ds = bool_decide (d_label ds ∈ h).
Proof.
  unfold datasets_of. intros (entry & -> & Hentry)%list_elem_of_fmap.
  apply elem_of_Object_entries_grouping in Hentry as [Ht Hgroup].
  rewrite d_label_mkDatasetOf, d_data_mkDatasetOf, d_hidden_mkDatasetOf.
  by rewrite <- Hgroup.
Qed.

(** The hidden set only reaches the [hidden] flags. *)
Lemma datasets_of_hidden_irrelevant ms h h' :
  d_label <$> datasets_of parseISO ms h' = d_label <$> datasets_of parseISO ms h
  ∧ d_data <$> datasets_of parseISO ms h' = d_data <$> datasets_of parseISO ms h
  ∧ d_backgroundColor <$> datasets_of parseISO ms h'
    = d_backgroundColor <$> datasets_of parseISO ms h
  ∧ d_borderColor <$> datasets_of parseISO ms h'
    = d_borderColor <$> datasets_of parseISO ms h.
Proof.
  unfold datasets_of. rewrite <- !list_fmap_compose.
  split_and!; apply list_fmap_ext; intros i [t group] _; simpl;
    by destruct (colorOf _ t) as [[? ?] ?].
Qed.

(** With ordinary timeline names the datasets follow the Timeline Index. *)
Lemma chartData_ordinary ms h :
  Forall good_key ms →
  Forall (λ m, ordinary_key (m_timeline m)) ms →
  chartData parseISO ms h
  = Returns
      {| labels := timelines ms;
         datasets :=
           (λ t, mkDatasetOf parseISO (timelineColors (timelines ms)) h
                   (t, group_of ms t)) <$> timelines ms |}.
Proof.
  intros Hgood Hord. rewrite chartData_returns by done. do 2 f_equal.
  unfold datasets_of. rewrite Object_entries_ordinary.
  - unfold grouping_of. by rewrite <- list_fmap_compose.
  - unfold grouping_of. apply Forall_fmap, Forall_forall. intros t Ht. simpl.
    apply elem_of_timelines, list_elem_of_fmap in Ht as (m & -> & Hm).
    rewrite Forall_forall in Hord. by apply Hord.
Qed.

End DatasetFacts.

(** The example scenario of the spec: two series, Education then Career,
    and one point in the Education series. *)
Lemma chartData_example_scenario (parseISO : string → Date) :
  ∃ education career,
    chartData parseISO sample_collection ∅
    = Returns {| labels := ["Education"; "Career"];
                 datasets := [education; career] |}
    ∧ d_label education = "Education" ∧ d_label career = "Career"
    ∧ d_data education
      = [ {| p_x := (parseISO "2010-06-01", parseISO "2010-06-01");
             p_y := "Education"; p_title := "Graduate"; p_id := "id-1" |} ].
Proof.
  do 2 eexists. split; [|split_and!].
  - rewrite chartData_ordinary.
    + reflexivity.
    + repeat constructor; unfold good_key; vm_compute; set_solver.
    + by repeat constructor.
  - reflexivity.
  - reflexivity.
  - reflexivity.
Qed.

(** * The properties of the spec *)

(** C1.  The Timeline Index is the sequence of distinct timeline values of
    the collection in first-seen order: it is what the scan of the spec
    ([first_seen]) collects, it has no duplicate, it holds exactly the
    timeline values of the collection, and appending records to the
    collection only extends it at the end, so no sorting takes place.
    Being a function of the collection alone, recomputing it gives the
    same sequence.  Timelines [Work, Home, Work] give [Work, Home]. *)
Theorem timelines_first_seen_order (ms ms' : list Milestone) (m1 m2 m3 : Milestone) :
  timelines ms = first_seen (m_timeline <$> ms)
  ∧ NoDup (timelines ms)
  ∧ (∀ t, t ∈ timelines ms ↔ t ∈ m_timeline <$> ms)
  ∧ timelines ms `prefix_of` timelines (ms ++ ms')
  ∧ timelines [set_timeline "Work" m1; set_timeline "Home" m2;
               set_timeline "Work" m3] = ["Work"; "Home"].
Proof.
  split_and!.
  - apply timelines_first_seen.
  - apply NoDup_timelines.
  - intros t. apply elem_of_timelines.
  - apply timelines_app_prefix.
  - rewrite timelines_first_seen. reflexivity.
Qed.

(** C2 does not hold of the code.  With the timelines Work and then 2020,
    the Timeline Index and the category axis are [Work, 2020], but the
    datasets come out as [2020, Work]: [Object.entries] lists a property
    named by an array index before the others.  With a timeline named
    constructor the grouping loop throws a TypeError and no dataset is
    produced. *)
Theorem chartData_breaks_index_order (parseISO : string → Date) :
  timelines year_named = ["Work"; "2020"]
  ∧ (∃ cd, chartData parseISO year_named ∅ = Returns cd
         ∧ labels cd = ["Work"; "2020"]
         ∧ d_label <$> datasets cd = ["2020"; "Work"])
  ∧ timelines prototype_named = ["Work"; "constructor"]
  ∧ chartData parseISO prototype_named ∅ = Throws TypeError.
Proof.
  split_and!.
  - reflexivity.
  - eexists. split; [|split].
    + rewrite chartData_returns; [reflexivity|].
      repeat constructor; unfold good_key; vm_compute; set_solver.
    + reflexivity.
    + reflexivity.
  - reflexivity.
  - apply chartData_throws. apply Exists_cons_tl, Exists_cons_hd.
    unfold good_key. intros Hkey. apply Hkey. vm_compute. set_solver.
Qed.

(** C3.  The colour family of the timeline at position [i] of the Timeline
    Index is entry [i mod 5] of the five-entry palette, whatever the name
    of the timeline: position 0 gets entry 0 (blue), and so does
    position 5, the sixth distinct timeline. *)
Theorem timelineColors_positional (ms : list Milestone) (i : nat) (t : string) :
  timelines ms !! i = Some t →
  length colorFamilies = 5
  ∧ ∃ c, colorFamilies !! (i mod 5) = Some c
       ∧ timelineColors (timelines ms) !! t = Some (Some c)
       ∧ colorOf (timelineColors (timelines ms)) t = c
       ∧ (i = 0 ∨ i = 5 → c = ("#E3F2FD", "#42A5F5", "#1E88E5")).
Proof.
  intros Hi. split; [done|].
  destruct (getColorFamily_is_Some i) as [c Hc].
  pose proof (timelineColors_lookup _ _ _ (NoDup_timelines ms) Hi) as Hlook.
  exists c. split_and!.
  - exact Hc.
  - by rewrite Hlook, Hc.
  - unfold colorOf. by rewrite Hlook, Hc.
  - intros [->| ->]; unfold getColorFamily in Hc; simpl in Hc; congruence.
Qed.

Lemma timelineColors_positional_witness :
  timelines six_timelines !! 5 = Some "Alpha"
  ∧ colorOf (timelineColors (timelines six_timelines)) "Alpha"
    = ("#E3F2FD", "#42A5F5", "#1E88E5").
Proof.
  split; [reflexivity|].
  destruct (timelineColors_positional six_timelines 5 "Alpha" eq_refl)
    as (_ & c & _ & _ & -> & Hc).
  apply Hc. by right.
Defined.

(** C4.  A submit with nothing being edited is the add operation.  When
    any of title, timeline, start or end is empty it is rejected and the
    state, so the collection, is left as it was: no record is created.
    When the four are non-empty it appends exactly one record, built from
    the form and carrying the generated id, after the existing records,
    which keep their order; the new id is unique in the collection as soon
    as the generator returned one that is not in use. *)
Theorem handleSubmit_add (uuid : string) (st : AppState) :
  (f_title (form st) = "" ∨ f_timeline (form st) = ""
   ∨ f_start (form st) = "" ∨ f_end (form st) = "" →
   handleSubmit uuid st = st)
  ∧ (editingId st = None →
     f_title (form st) ≠ "" → f_timeline (form st) ≠ "" →
     f_start (form st) ≠ "" → f_end (form st) ≠ "" →
     milestones (handleSubmit uuid st)
     = milestones st
       ++ [ {| m_id := uuid;
               m_title := f_title (form st);
               m_timeline := f_timeline (form st);
               m_start := f_start (form st);
               m_end := f_end (form st);
               m_notes := f_notes (form st) |} ]
     ∧ length (milestones (handleSubmit uuid st)) = S (length (milestones st))
     ∧ (uuid ∉ m_id <$> milestones st →
        NoDup (m_id <$> milestones st) →
        NoDup (m_id <$> milestones (handleSubmit uuid st)))).
Proof.
  split; [apply handleSubmit_guard_rejects|].
  intros Hid Ht Hl Hs He.
  rewrite handleSubmit_guard_passes by done. rewrite Hid. cbn.
  split_and!; [done| |].
  - rewrite length_app. simpl. lia.
  - intros Hfresh Hnd. rewrite fmap_app. apply NoDup_app. split_and!.
    + done.
    + intros x Hx Hx'. apply list_elem_of_singleton in Hx'. by subst.
    + apply NoDup_singleton.
Qed.

Lemma handleSubmit_add_witness :
  handleSubmit "id-3"
    (mkState sample_collection (mkForm "" "Career" "x" "y" None) None ∅)
  = mkState sample_collection (mkForm "" "Career" "x" "y" None) None ∅
  ∧ milestones (handleSubmit "id-3" (mkState sample_collection sample_form None ∅))
    = sample_collection
      ++ [mkMilestone "id-3" "Promotion" "Career" "2012-03-01" "2012-03-01"
            (Some "team lead")].
Proof.
  split.
  - apply (proj1 (handleSubmit_add "id-3" _)). by left.
  - by apply (proj2 (handleSubmit_add "id-3"
                       (mkState sample_collection sample_form None ∅))).
Defined.

(** C5, as the code has it.  The transform validates no date.  Whenever
    the grouping completes, a milestone whose start or end does not parse
    does not make the transform fail: it returns, and the milestone's
    point is in the dataset of its timeline with the range
    [[getTime (parseISO start), getTime (parseISO end)]], of which the
    unparseable side is [NaN]. *)
Theorem chartData_invalid_date_is_NaN (parseISO : string → Date)
    (ms : list Milestone) (h : gset string) (m : Milestone) :
  Forall good_key ms →
  m ∈ ms →
  parseISO (m_start m) = NaN ∨ parseISO (m_end m) = NaN →
  ∃ cd ds p,
    chartData parseISO ms h = Returns cd
    ∧ ds ∈ datasets cd ∧ d_label ds = m_timeline m
    ∧ p ∈ d_data ds ∧ p_id p = m_id m ∧ p_title p = m_title m
    ∧ p_x p = (parseISO (m_start m), parseISO (m_end m))
    ∧ ((p_x p).1 = NaN ∨ (p_x p).2 = NaN).
Proof.
  intros Hgood Hm Hnan.
  exists {| labels := timelines ms; datasets := datasets_of parseISO ms h |}.
  exists (mkDatasetOf parseISO (timelineColors (timelines ms)) h
            (m_timeline m, group_of ms (m_timeline m))).
  exists (mkPointOf parseISO (m_timeline m) m).
  split_and!.
  - by apply chartData_returns.
  - cbn [datasets]. unfold datasets_of. apply list_elem_of_fmap_2.
    apply elem_of_grouping_of, elem_of_timelines, list_elem_of_fmap_2. done.
  - by rewrite d_label_mkDatasetOf.
  - rewrite d_data_mkDatasetOf. cbn [fst snd].
    by apply list_elem_of_fmap_2, elem_of_group_of.
  - done.
  - done.
  - done.
  - exact Hnan.
Qed.

Lemma chartData_invalid_date_is_NaN_witness :
  ∃ cd ds p,
    chartData parseISO_utc [undated] ∅ = Returns cd
    ∧ ds ∈ datasets cd ∧ d_label ds = "Education"
    ∧ p ∈ d_data ds ∧ p_id p = "id-1" ∧ p_title p = "Graduate"
    ∧ p_x p = (NaN, Num 1275350400000)
    ∧ ((p_x p).1 = NaN ∨ (p_x p).2 = NaN).
Proof.
  refine (chartData_invalid_date_is_NaN parseISO_utc [undated] ∅ undated _ _ _).
  - repeat constructor. unfold good_key. vm_compute. set_solver.
  - apply list_elem_of_here.
  - left. reflexivity.
Defined.

(** C5, as the spec has it, fails: with a start that is no date the
    transform neither fails nor crashes, it returns a range that holds
    [NaN]. *)
Lemma chartData_invalid_date_returns :
  chartData parseISO_utc [undated] ∅
  = Returns
      {| labels := ["Education"];
         datasets :=
           [ {| d_label := "Education";
                d_data := [ {| p_x := (NaN, Num 1275350400000);
                               p_y := "Education";
                               p_title := "Graduate";
                               p_id := "id-1" |} ];
                d_backgroundColor := "#42A5F5";
                d_borderColor := "#1E88E5";
                d_borderWidth := 1;
                d_borderRadius := 4;
                d_hidden := false |} ] |}.
Proof. vm_compute. reflexivity. Qed.

(** C6.  In a collection whose ids are distinct, submitting a complete
    form while the record with id [id] is being edited replaces that
    record where it stands: the collection afterwards is the old one with
    position [i] overwritten by a record that has the same id and the
    fields of the form.  Every other position is untouched, the ids and
    their order are the same, and the length is the same. *)
Theorem handleSubmit_update_in_place (uuid : string) (st : AppState)
    (id : string) (i : nat) (m : Milestone) :
  editingId st = Some id → id ≠ "" →
  form_complete (form st) →
  NoDup (m_id <$> milestones st) →
  milestones st !! i = Some m → m_id m = id →
  let updated := {| m_id := id;
                    m_title := f_title (form st);
                    m_timeline := f_timeline (form st);
                    m_start := f_start (form st);
                    m_end := f_end (form st);
                    m_notes := f_notes (form st) |} in
  milestones (handleSubmit uuid st) = <[i := updated]> (milestones st)
  ∧ milestones (handleSubmit uuid st) !! i = Some updated
  ∧ (∀ j, j ≠ i → milestones (handleSubmit uuid st) !! j = milestones st !! j)
  ∧ m_id <$> milestones (handleSubmit uuid st) = m_id <$> milestones st
  ∧ length (milestones (handleSubmit uuid st)) = length (milestones st).
Proof.
  intros He Hid Hform Hnd Hi Hm updated.
  assert (milestones (handleSubmit uuid st) = <[i := updated]> (milestones st))
    as Hupd.
  { rewrite handleSubmit_guard_passes by done. cbn [milestones].
    rewrite He. cbn [truthy_opt]. apply truthy_true in Hid as Htr. rewrite Htr.
    unfold newMilestone, or_else. rewrite Htr. fold updated.
    rewrite <- Hm. by apply fmap_replace_by_id. }
  pose proof (lookup_lt_Some _ _ _ Hi) as Hlt.
  rewrite Hupd. split_and!.
  - done.
  - by apply list_lookup_insert_eq.
  - intros j Hj. by apply list_lookup_insert_ne.
  - rewrite list_fmap_insert. apply list_insert_id.
    rewrite list_lookup_fmap, Hi. simpl. by rewrite Hm.
  - apply length_insert.
Qed.

Lemma handleSubmit_update_in_place_witness :
  milestones (handleSubmit "id-3"
                (mkState sample_collection sample_form (Some "id-1") ∅))
  = [ mkMilestone "id-1" "Promotion" "Career" "2012-03-01" "2012-03-01"
        (Some "team lead");
      mkMilestone "id-2" "First Job" "Career" "2010-07-01" "2015-01-01" (Some "") ].
Proof.
  refine (proj1 (handleSubmit_update_in_place "id-3"
            (mkState sample_collection sample_form (Some "id-1") ∅)
            "id-1" 0 _ eq_refl _ _ _ eq_refl eq_refl)).
  - done.
  - by repeat split.
  - vm_compute. repeat constructor; set_solver.
Defined.




(** C8.  Toggling the same timeline twice in a row gives back the state it
    started from: the hidden set is exactly the original one, and nothing
    else has moved. *)
Theorem toggleTimeline_involutive (t : string) (st : AppState) :
  toggleTimeline t (toggleTimeline t st) = st
  ∧ hidden (toggleTimeline t (toggleTimeline t st)) = hidden st.
Proof.
  assert (hidden (toggleTimeline t (toggleTimeline t st)) = hidden st) as Hh.
  { unfold toggleTimeline. cbn [hidden].
    destruct (decide (t ∈ hidden st)) as [Hin|Hnotin].
    - rewrite decide_False by set_solver.
      apply set_eq. intros x. destruct (decide (x = t)); set_solver.
    - rewrite decide_True by set_solver. set_solver. }
  split; [|done]. destruct st as [ms f e h]. unfold toggleTimeline in *.
  cbn [milestones form editingId hidden] in *. by rewrite Hh.
Qed.

(** C9.  [toggleTimeline] changes the hidden set and nothing else: the
    key is removed when it was present and inserted when it was not, every
    other key stays as it was, and the collection, the form and the editing
    id are untouched, so the Timeline Index is the same.  The hidden set
    filters nothing out of the chart: whenever the transform returns, the
    category axis is the whole Timeline Index, every timeline of the index
    has its dataset, and a dataset's [hidden] flag says whether its
    timeline is in the hidden set; after the toggle the transform returns
    the same axis and the same datasets with the same points, flagged by
    the new hidden set. *)
Theorem toggleTimeline_only_flags (parseISO : string → Date) (t : string)
    (st : AppState) :
  milestones (toggleTimeline t st) = milestones st
  ∧ form (toggleTimeline t st) = form st
  ∧ editingId (toggleTimeline t st) = editingId st
  ∧ (t ∈ hidden (toggleTimeline t st) ↔ t ∉ hidden st)
  ∧ (∀ k, k ≠ t → k ∈ hidden (toggleTimeline t st) ↔ k ∈ hidden st)
  ∧ timelines (milestones (toggleTimeline t st)) = timelines (milestones st)
  ∧ (∀ cd, chartData parseISO (milestones st) (hidden st) = Returns cd →
       labels cd = timelines (milestones st)
       ∧ d_label <$> datasets cd ≡ₚ timelines (milestones st)
       ∧ (∀ ds, ds ∈ datasets cd →
            d_hidden ds = bool_decide (d_label ds ∈ hidden st))
       ∧ ∃ cd',
           chartData parseISO (milestones (toggleTimeline t st))
             (hidden (toggleTimeline t st)) = Returns cd'
           ∧ labels cd' = labels cd
           ∧ d_label <$> datasets cd' = d_label <$> datasets cd
           ∧ d_data <$> datasets cd' = d_data <$> datasets cd
           ∧ (∀ ds, ds ∈ datasets cd' →
                d_hidden ds
                = bool_decide (d_label ds ∈ hidden (toggleTimeline t st)))).
Proof.
  unfold toggleTimeline. cbn [milestones form editingId hidden].
  split_and!; try done.
  - case_decide; set_solver.
  - intros k Hk. case_decide; set_solver.
  - intros cd Hcd. apply chartData_Returns_inv in Hcd as [Hgood ->].
    cbn [labels datasets]. split_and!.
    + done.
    + apply datasets_of_labels_Permutation.
    + intros ds Hds. by apply datasets_of_data in Hds as (_ & _ & ->).
    + eexists. split; [by apply chartData_returns|]. cbn [labels datasets].
      destruct (datasets_of_hidden_irrelevant parseISO (milestones st)
                  (hidden st)
                  (if decide (t ∈ hidden st) then hidden st ∖ {[t]}
                   else hidden st ∪ {[t]})) as (Hl & Hd & _).
      split_and!; [done|exact Hl|exact Hd|].
      intros ds Hds. by apply datasets_of_data in Hds as (_ & _ & ->).
Qed.

Lemma toggleTimeline_only_flags_witness :
  ∃ cd',
    chartData parseISO_utc
      (milestones (toggleTimeline "Career"
                     (mkState sample_collection sample_form None ∅)))
      (hidden (toggleTimeline "Career"
                 (mkState sample_collection sample_form None ∅)))
    = Returns cd'
    ∧ labels cd' = ["Education"; "Career"]
    ∧ d_label <$> datasets cd' = ["Education"; "Career"]
    ∧ d_hidden <$> datasets cd' = [false; true].
Proof.
  destruct (proj2 (proj2 (proj2 (proj2 (proj2 (proj2
              (toggleTimeline_only_flags parseISO_utc "Career"
                 (mkState sample_collection sample_form None ∅)))))))
              _ eq_refl) as (_ & _ & _ & cd' & Hcd' & Hlabels & Hnames & _).
  exists cd'. split; [exact Hcd'|]. split; [exact Hlabels|].
  split; [exact Hnames|].
  vm_compute in Hcd'. injection Hcd' as <-. reflexivity.
Defined.

(** C10.  Deleting the record that is being edited leaves edit mode: the
    editing id becomes null and the form is cleared, so that once the
    form has been filled in again a submit appends a new record, with a
    generated id, instead of updating.  Deleting any other id leaves the
    form and the editing id as they were.  In both cases the collection
    loses the records with that id and nothing else. *)
Theorem handleDelete_editing (id : string) (st : AppState) :
  milestones (handleDelete id st) = filter (λ m, m_id m ≠ id) (milestones st)
  ∧ (editingId st = Some id →
     editingId (handleDelete id st) = None
     ∧ form (handleDelete id st) = clearedForm
     ∧ ∀ events uuid,
         let st' := typing (handleDelete id st) events in
         form_complete (form st') →
         milestones (handleSubmit uuid st')
         = milestones (handleDelete id st)
           ++ [ {| m_id := uuid;
                   m_title := f_title (form st');
                   m_timeline := f_timeline (form st');
                   m_start := f_start (form st');
                   m_end := f_end (form st');
                   m_notes := f_notes (form st') |} ])
  ∧ (editingId st ≠ Some id →
     editingId (handleDelete id st) = editingId st
     ∧ form (handleDelete id st) = form st).
Proof.
  unfold handleDelete. cbv zeta. split_and!.
  - by case_decide.
  - intros He. rewrite decide_True by done. cbn [editingId form].
    split_and!; [done..|]. intros events uuid.
    set (deleted := {| milestones := filter (λ m, m_id m ≠ id) (milestones st);
                       form := clearedForm; editingId := None;
                       hidden := hidden st |}).
    destruct (typing_frame deleted events) as (Hms & Hed & _).
    intros Hform. rewrite handleSubmit_guard_passes by done.
    rewrite Hed, Hms. reflexivity.
  - intros He. by rewrite decide_False by done.
Qed.

Lemma handleDelete_editing_witness :
  editingId (handleDelete "id-1"
               (mkState sample_collection sample_form (Some "id-1") ∅)) = None
  ∧ editingId (handleDelete "id-2"
                 (mkState sample_collection sample_form (Some "id-1") ∅))
    = Some "id-1".
Proof.
  split.
  - exact (proj1 (proj1 (proj2 (handleDelete_editing "id-1"
             (mkState sample_collection sample_form (Some "id-1") ∅))) eq_refl)).
  - refine (proj1 (proj2 (proj2 (handleDelete_editing "id-2"
             (mkState sample_collection sample_form (Some "id-1") ∅))) _)).
    done.
Defined.

(** * Further properties of the code *)

(** ** The handlers *)

Lemma handleSubmit_accepts_form uuid st :
  form_complete (form st) → form (handleSubmit uuid st) = submittedForm.
Proof. intros Hf. by rewrite handleSubmit_guard_passes. Qed.

(** X1.  Pressing the submit button twice in a row does what pressing it
    once does: the second press meets the form the first one left and is
    turned away, so no record is added or replaced twice. *)
Theorem handleSubmit_twice (uuid1 uuid2 : string) (st : AppState) :
  handleSubmit uuid2 (handleSubmit uuid1 st) = handleSubmit uuid1 st.
Proof.
  destruct (decide (f_title (form st) = "")) as [Ht|Ht];
    [rewrite !(handleSubmit_guard_rejects uuid1 st) by tauto;
     apply handleSubmit_guard_rejects; tauto|].
  destruct (decide (f_timeline (form st) = "")) as [Hl|Hl];
    [rewrite !(handleSubmit_guard_rejects uuid1 st) by tauto;
     apply handleSubmit_guard_rejects; tauto|].
  destruct (decide (f_start (form st) = "")) as [Hs|Hs];
    [rewrite !(handleSubmit_guard_rejects uuid1 st) by tauto;
     apply handleSubmit_guard_rejects; tauto|].
  destruct (decide (f_end (form st) = "")) as [He|He];
    [rewrite !(handleSubmit_guard_rejects uuid1 st) by tauto;
     apply handleSubmit_guard_rejects; tauto|].
  apply handleSubmit_guard_rejects. left.
  by rewrite handleSubmit_accepts_form.
Qed.

(** X2.  Opening a stored record for editing and submitting it untouched
    leaves the collection as it was, when ids are distinct and the
    record's id is not empty. *)
Theorem handleEdit_submit_unchanged (uuid : string) (st : AppState) (m : Milestone) :
  m ∈ milestones st →
  NoDup (m_id <$> milestones st) →
  m_id m ≠ "" →
  milestones (handleSubmit uuid (handleEdit m st)) = milestones st.
Proof.
  intros Hm Hnd Hid. unfold handleSubmit. cbv zeta.
  destruct (negb _ || _ || _ || _); [done|]. cbn [milestones handleEdit editingId form].
  cbn [truthy_opt]. apply truthy_true in Hid as Htr. rewrite Htr.
  apply list_elem_of_lookup in Hm as [i Hi].
  rewrite (fmap_replace_by_id _ i m) by done.
  apply list_insert_id. rewrite Hi. f_equal.
  unfold newMilestone, or_else. rewrite Htr. by destruct m.
Qed.

Lemma handleEdit_submit_unchanged_witness :
  milestones (handleSubmit "id-3"
                (handleEdit (mkMilestone "id-2" "First Job" "Career" "2010-07-01"
                               "2015-01-01" (Some ""))
                   (mkState sample_collection sample_form None ∅)))
  = sample_collection.
Proof.
  refine (handleEdit_submit_unchanged "id-3"
            (mkState sample_collection sample_form None ∅) _ _ _ _).
  - apply list_elem_of_further, list_elem_of_here.
  - vm_compute. repeat constructor; set_solver.
  - done.
Defined.

Lemma filter_id_delete (l : list Milestone) (i : nat) (m : Milestone) :
  NoDup (m_id <$> l) → l !! i = Some m →
  filter (λ x, m_id x ≠ m_id m) l = delete i l.
Proof.
  revert i. induction l as [|x l IH]; intros i Hnd Hi; [done|].
  rewrite fmap_cons in Hnd. apply NoDup_cons in Hnd as [Hx Hnd].
  rewrite filter_cons. destruct i as [|i]; simpl in Hi.
  - injection Hi as ->. rewrite decide_False by (intros H; by apply H).
    simpl. clear IH. induction l as [|y l IH]; [done|].
    rewrite fmap_cons in Hx, Hnd. apply not_elem_of_cons in Hx as [Hne Hx].
    apply NoDup_cons in Hnd as [_ Hnd].
    rewrite filter_cons, decide_True by done. f_equal. by apply IH.
  - rewrite decide_True.
    + simpl. f_equal. by apply IH.
    + intros Heq. apply Hx. rewrite Heq. apply list_elem_of_fmap_2.
      by eapply list_elem_of_lookup_2.
Qed.

(** X3.  With distinct ids, deleting the id of the record at position [i]
    removes that record and no other: the rest keep their order and the
    collection is one shorter. *)
Theorem handleDelete_removes_one (st : AppState) (i : nat) (m : Milestone) :
  NoDup (m_id <$> milestones st) →
  milestones st !! i = Some m →
  milestones (handleDelete (m_id m) st) = delete i (milestones st)
  ∧ S (length (milestones (handleDelete (m_id m) st))) = length (milestones st)
  ∧ m ∉ milestones (handleDelete (m_id m) st).
Proof.
  intros Hnd Hi.
  assert (milestones (handleDelete (m_id m) st)
          = filter (λ x, m_id x ≠ m_id m) (milestones st)) as ->.
  { unfold handleDelete. cbv zeta. by case_decide. }
  split_and!.
  - by apply filter_id_delete.
  - rewrite (filter_id_delete _ i) by done. rewrite length_delete by eauto.
    apply lookup_lt_Some in Hi. lia.
  - intros [Hne _]%list_elem_of_filter. by apply Hne.
Qed.

Lemma handleDelete_removes_one_witness :
  milestones (handleDelete "id-1" (mkState sample_collection sample_form None ∅))
  = [mkMilestone "id-2" "First Job" "Career" "2010-07-01" "2015-01-01" (Some "")].
Proof.
  refine (proj1 (handleDelete_removes_one
            (mkState sample_collection sample_form None ∅) 0
            (mkMilestone "id-1" "Graduate" "Education" "2010-06-01" "2010-06-01"
               (Some "")) _ eq_refl)).
  vm_compute. repeat constructor; set_solver.
Defined.

Lemma filter_id_absent (l : list Milestone) (id : string) :
  id ∉ m_id <$> l → filter (λ x, m_id x ≠ id) l = l.
Proof.
  induction l as [|x l IH]; intros Hid; [done|].
  rewrite fmap_cons in Hid. apply not_elem_of_cons in Hid as [Hne Hid].
  rewrite filter_cons, decide_True by done. f_equal. by apply IH.
Qed.

(** X4.  Deleting an id that no record has leaves the collection as it
    was, and the whole state when that id is not the one being edited. *)
Theorem handleDelete_absent (id : string) (st : AppState) :
  id ∉ m_id <$> milestones st →
  milestones (handleDelete id st) = milestones st
  ∧ (editingId st ≠ Some id → handleDelete id st = st).
Proof.
  intros Hid. unfold handleDelete. cbv zeta.
  rewrite filter_id_absent by done. split.
  - by case_decide.
  - intros He. rewrite decide_False by done. by destruct st.
Qed.

Lemma handleDelete_absent_witness :
  handleDelete "id-9" (mkState sample_collection sample_form (Some "id-1") ∅)
  = mkState sample_collection sample_form (Some "id-1") ∅.
Proof.
  refine (proj2 (handleDelete_absent "id-9"
            (mkState sample_collection sample_form (Some "id-1") ∅) _) _).
  - vm_compute. set_solver.
  - done.
Defined.

(** X5.  Deleting the same id twice is deleting it once, and two deletes
    give the same state in either order. *)
Theorem handleDelete_compose (a b : string) (st : AppState) :
  handleDelete a (handleDelete a st) = handleDelete a st
  ∧ handleDelete a (handleDelete b st) = handleDelete b (handleDelete a st).
Proof.
  assert (∀ x y (l : list Milestone),
            filter (λ m, m_id m ≠ x) (filter (λ m, m_id m ≠ y) l)
            = filter (λ m, m_id m ≠ y) (filter (λ m, m_id m ≠ x) l)) as Hcomm.
  { intros x y l. induction l as [|m l IH]; [done|].
    rewrite !filter_cons.
    destruct (decide (m_id m ≠ y)), (decide (m_id m ≠ x));
      rewrite ?filter_cons, ?decide_True, ?decide_False by done;
      by rewrite ?IH. }
  assert (∀ x (l : list Milestone),
            filter (λ m, m_id m ≠ x) (filter (λ m, m_id m ≠ x) l)
            = filter (λ m, m_id m ≠ x) l) as Hidem.
  { intros x l. induction l as [|m l IH]; [done|].
    rewrite !filter_cons. destruct (decide (m_id m ≠ x));
      rewrite ?filter_cons, ?decide_True by done; by rewrite ?IH. }
  split.
  - unfold handleDelete. cbv zeta.
    destruct (decide (editingId st = Some a)) as [He|He];
      cbn [milestones form editingId hidden].
    + rewrite decide_False by done. by rewrite Hidem.
    + rewrite decide_False by done. by rewrite Hidem.
  - unfold handleDelete. cbv zeta.
    destruct (decide (editingId st = Some a)) as [Ha|Ha],
             (decide (editingId st = Some b)) as [Hb|Hb];
      cbn [milestones form editingId hidden];
      repeat case_decide; try congruence; by rewrite (Hcomm a b).
Qed.


(** X6.  Two changes typed into the form: on the same input the later
    value replaces the earlier one, on different inputs the order of the
    two changes does not matter. *)
Theorem handleFormChange_compose (n1 n2 : FieldName.t) (v1 v2 : string)
    (st : AppState) :
  handleFormChange n1 v1 (handleFormChange n2 v2 st)
  = if decide (n1 = n2) then handleFormChange n1 v1 st
    else handleFormChange n2 v2 (handleFormChange n1 v1 st).
Proof.
  destruct st as [ms f e h]. destruct n1, n2; reflexivity.
Qed.

(** X7.  Over any sequence of user actions, the hidden set moves only on
    a chip click and the collection only on a submit or a delete: a run
    without chip clicks ends with the hidden set it started with, so a
    hidden timeline stays hidden through adds, updates and deletes, and a
    run without submit and delete ends with the same collection. *)
Theorem run_frame (es : list event) (st : AppState) :
  (forallb (λ e, negb (is_toggle e)) es = true → hidden (run es st) = hidden st)
  ∧ (forallb (λ e, negb (changes_collection e)) es = true →
     milestones (run es st) = milestones st).
Proof.
  split; revert st; induction es as [|e es IH]; intros st Hes; try done;
    simpl in Hes; apply andb_prop in Hes as [He Hes]; simpl;
    rewrite IH by done; destruct e; try done; simpl.
  - unfold handleSubmit. cbv zeta. by destruct (negb _ || _ || _ || _).
  - unfold handleDelete. cbv zeta. by case_decide.
Qed.

Lemma run_frame_witness :
  hidden (run [Edit (mkMilestone "id-1" "Graduate" "Education" "2010-06-01"
                       "2010-06-01" (Some ""));
               Change FieldName.title "Graduation"; Submit "id-3"; Delete "id-1"]
            (mkState sample_collection sample_form None {["Education"]}))
  = {["Education"]}.
Proof.
  refine (proj1 (run_frame _ (mkState sample_collection sample_form None
                                {["Education"]})) _).
  reflexivity.
Defined.

(** X8.  Starting from an empty store, whatever the user does, as long as
    [uuidv4] returns non-empty ids that are not in use and Edit is pressed
    on a listed record: the ids of the collection are distinct, none is
    empty, and the id being edited is the id of a stored record. *)
Theorem reachable_ids (es : list event) :
  run_ok es (initialState None) →
  NoDup (m_id <$> milestones (run es (initialState None)))
  ∧ Forall (λ m, m_id m ≠ "") (milestones (run es (initialState None)))
  ∧ ∀ id, editingId (run es (initialState None)) = Some id →
          id ≠ "" ∧ ∃ m, m ∈ milestones (run es (initialState None)) ∧ m_id m = id.
Proof.
  intros Hok.
  pose proof (wf_state_run es _ wf_state_initial Hok) as Hwf.
  destruct Hwf as (Hnd & Hne & Hed). split_and!; [done..|].
  intros id He.
  destruct (wf_state_editing _ id (conj Hnd (conj Hne Hed)) He)
    as (Hid & i & m & Hi & Hm).
  split; [done|]. exists m. split; [|done]. by eapply list_elem_of_lookup_2.
Qed.

Lemma reachable_ids_witness :
  NoDup (m_id <$> milestones (run sample_session (initialState None)))
  ∧ milestones (run sample_session (initialState None))
    = [mkMilestone "id-1" "Graduation" "Education" "2010-06-01" "2010-06-01"
         (Some "")].
Proof.
  split; [|reflexivity].
  refine (proj1 (reachable_ids sample_session _)).
  vm_compute. repeat split; try done; set_solver.
Defined.

(** X9.  The labels of the form tell what a submit does.  With a complete
    form, the button reads Add exactly when the submit makes the
    collection one longer, and Update exactly when it keeps its length;
    the heading reads Edit Milestone and the Cancel button is shown in the
    second case only. *)
Theorem submitLabel_agrees (uuid : string) (st : AppState) :
  form_complete (form st) →
  (submitLabel st = "Add" ∧ formHeading st = "Add Milestone"
   ∧ cancelShown st = false
   ∧ length (milestones (handleSubmit uuid st)) = S (length (milestones st)))
  ∨ (submitLabel st = "Update" ∧ formHeading st = "Edit Milestone"
     ∧ cancelShown st = true
     ∧ length (milestones (handleSubmit uuid st)) = length (milestones st)).
Proof.
  intros Hf. rewrite handleSubmit_guard_passes by done.
  unfold submitLabel, formHeading, cancelShown. cbn [milestones].
  destruct (truthy_opt (editingId st)); [right|left]; split_and!; try done.
  - by rewrite length_fmap.
  - rewrite length_app. simpl. lia.
Qed.

Lemma submitLabel_agrees_witness :
  submitLabel (mkState sample_collection sample_form (Some "id-1") ∅) = "Update"
  ∧ length (milestones (handleSubmit "id-3"
              (mkState sample_collection sample_form (Some "id-1") ∅))) = 2.
Proof.
  destruct (submitLabel_agrees "id-3"
              (mkState sample_collection sample_form (Some "id-1") ∅))
    as [(Hl & _)|(Hl & _ & _ & Hlen)].
  - by repeat split.
  - discriminate Hl.
  - split; [exact Hl|exact Hlen].
Defined.

(** X10.  Pressing Edit or Cancel overrides whatever edit was under way:
    after opening a record and typing, Cancel gives the state Cancel gives
    at once, with the collection untouched, and Edit on another record
    gives the state that Edit gives at once. *)
Theorem edit_mode_overrides (m m' : Milestone)
    (events : list (FieldName.t * string)) (st : AppState) :
  handleCancel (typing (handleEdit m st) events) = handleCancel st
  ∧ milestones (handleCancel (typing (handleEdit m st) events)) = milestones st
  ∧ handleEdit m' (typing (handleEdit m st) events) = handleEdit m' st.
Proof.
  destruct (typing_frame (handleEdit m st) events) as (Hms & _ & Hh).
  change (milestones (handleEdit m st)) with (milestones st) in Hms.
  change (hidden (handleEdit m st)) with (hidden st) in Hh.
  split_and!.
  - unfold handleCancel. by rewrite Hms, Hh.
  - unfold handleCancel. cbn [milestones]. exact Hms.
  - unfold handleEdit at 1 3. by rewrite Hms, Hh.
Qed.

Lemma typing_notes st events :
  Forall (λ e, e.1 ≠ FieldName.notes) events →
  f_notes (form (typing st events)) = f_notes (form st).
Proof.
  revert st. induction events as [|[n v] events IH]; intros st Hev; [done|].
  apply Forall_cons in Hev as [Hn Hev]. unfold typing in *. cbn [foldl].
  rewrite IH by done. simpl in *. by destruct n.
Qed.

(** X11.  The [notes] of a new record, when the notes input is left
    alone: a record added after Cancel, or after deleting the record being
    edited, has no [notes] property, while a record added after a
    submit has the empty string. *)
Theorem notes_of_next_record (uuid uuid' id : string)
    (events : list (FieldName.t * string)) (st : AppState) :
  Forall (λ e, e.1 ≠ FieldName.notes) events →
  (form_complete (form (typing (handleCancel st) events)) →
   m_notes <$> last (milestones (handleSubmit uuid (typing (handleCancel st) events)))
   = Some None)
  ∧ (editingId st = Some id →
     form_complete (form (typing (handleDelete id st) events)) →
     m_notes <$> last (milestones (handleSubmit uuid
                                     (typing (handleDelete id st) events)))
     = Some None)
  ∧ (form_complete (form st) →
     form_complete (form (typing (handleSubmit uuid' st) events)) →
     m_notes <$> last (milestones (handleSubmit uuid
                                     (typing (handleSubmit uuid' st) events)))
     = Some (Some "")).
Proof.
  intros Hev. split_and!.
  - intros Hf. rewrite handleSubmit_guard_passes by done.
    destruct (typing_frame (handleCancel st) events) as (_ & -> & _).
    cbn [milestones handleCancel editingId truthy_opt]. rewrite last_snoc.
    simpl. by rewrite typing_notes.
  - intros He Hf. rewrite handleSubmit_guard_passes by done.
    destruct (typing_frame (handleDelete id st) events) as (_ & -> & _).
    pose proof (typing_notes (handleDelete id st) events Hev) as Hn.
    unfold handleDelete in *. cbv zeta in *. rewrite decide_True in * by done.
    cbn [milestones editingId truthy_opt form] in *. rewrite last_snoc.
    simpl. by rewrite Hn.
  - intros Hst Hf. rewrite handleSubmit_guard_passes by done.
    destruct (typing_frame (handleSubmit uuid' st) events) as (_ & -> & _).
    pose proof (typing_notes (handleSubmit uuid' st) events Hev) as Hn.
    rewrite (handleSubmit_guard_passes uuid' st) in * by done.
    cbn [milestones editingId truthy_opt form] in *. rewrite last_snoc.
    simpl. by rewrite Hn.
Qed.

Lemma notes_of_next_record_witness :
  m_notes <$> last (milestones (handleSubmit "id-3"
      (typing (handleCancel (mkState sample_collection sample_form (Some "id-1") ∅))
         [ (FieldName.title, "Move"); (FieldName.timeline, "Home");
           (FieldName.start, "2016-01-01"); (FieldName.end_, "2016-01-02") ])))
  = Some None.
Proof.
  refine (proj1 (notes_of_next_record "id-3" "id-4" "id-1" _
                   (mkState sample_collection sample_form (Some "id-1") ∅) _) _).
  - repeat constructor; done.
  - by repeat split.
Defined.

(** ** The chart transform *)

Lemma chartData_nil parseISO h :
  chartData parseISO [] h = Returns {| labels := []; datasets := [] |}.
Proof. reflexivity. Qed.

(** X12.  The transform throws, and then a [TypeError], exactly when some
    milestone's timeline is the name of a property of [Object.prototype];
    for every other collection, the empty one included, it returns, and
    what it returns has the Timeline Index as its category axis. *)
Theorem chartData_throws_exactly (parseISO : string → Date)
    (ms : list Milestone) (h : gset string) :
  (chartData parseISO ms h = Throws TypeError
   ↔ ∃ m, m ∈ ms ∧ m_timeline m ∈ Object_prototype_keys)
  ∧ ((∀ m, m ∈ ms → m_timeline m ∉ Object_prototype_keys)
     ↔ ∃ cd, chartData parseISO ms h = Returns cd ∧ labels cd = timelines ms)
  ∧ chartData parseISO [] h = Returns {| labels := []; datasets := [] |}.
Proof.
  split_and!; [| |apply chartData_nil].
  - split.
    + intros Hthrow. destruct (Forall_good_key_dec ms) as [Hok|Hbad].
      * rewrite chartData_returns in Hthrow by done. discriminate.
      * apply Exists_exists in Hbad as (m & Hm & Hkey). exists m.
        split; [done|]. unfold good_key in Hkey.
        by destruct (decide (m_timeline m ∈ Object_prototype_keys)).
    + intros (m & Hm & Hkey). apply chartData_throws, Exists_exists.
      exists m. split; [done|]. unfold good_key. tauto.
  - split.
    + intros Hok. eexists. split; [apply chartData_returns|done].
      apply Forall_forall. intros m Hm. by apply Hok.
    + intros (cd & Hcd & _) m Hm.
      apply chartData_Returns_inv in Hcd as [Hok _].
      rewrite Forall_forall in Hok. by apply Hok.
Qed.

Lemma mjoin_insert_group (ks : list string) (F : string → list Milestone) k m :
  NoDup ks → k ∈ ks →
  mjoin ((λ t, if decide (k = t) then m :: F t else F t) <$> ks)
  ≡ₚ m :: mjoin (F <$> ks).
Proof.
  induction ks as [|t ks IH]; intros Hnd Hk; [by apply elem_of_nil in Hk|].
  apply NoDup_cons in Hnd as [Ht Hnd]. rewrite !fmap_cons. cbn [mjoin list_join].
  destruct (decide (k = t)) as [->|Hne].
  - rewrite (list_fmap_ext _ F ks); [done|]. intros i t' Hi.
    rewrite decide_False; [done|]. intros ->. apply Ht.
    by eapply list_elem_of_lookup_2.
  - apply elem_of_cons in Hk as [?|Hk]; [done|].
    rewrite IH by done. by rewrite Permutation_middle.
Qed.

Lemma mjoin_group_of (ks : list string) (ms : list Milestone) :
  NoDup ks → (∀ m, m ∈ ms → m_timeline m ∈ ks) →
  mjoin (group_of ms <$> ks) ≡ₚ ms.
Proof.
  intros Hnd. induction ms as [|m ms IH]; intros Hks.
  - apply Permutation_nil_r, join_nil_2, Forall_fmap, Forall_true. done.
  - rewrite (list_fmap_ext (group_of (m :: ms))
               (λ t, if decide (m_timeline m = t) then m :: group_of ms t
                     else group_of ms t) ks).
    + rewrite mjoin_insert_group; [|done|apply Hks; by left].
      f_equiv. apply IH. intros m' Hm'. apply Hks. by right.
    + intros i t _. unfold group_of. rewrite filter_cons.
      by repeat case_decide.
Qed.

Lemma mjoin_fmap {A B : Type} (f : A → B) (ls : list (list A)) :
  mjoin (fmap f <$> ls) = f <$> mjoin ls.
Proof.
  induction ls as [|l ls IH]; [done|].
  rewrite fmap_cons. cbn [mjoin list_join]. rewrite fmap_app. f_equal. exact IH.
Qed.

(** X13.  Whenever the transform returns, the points of its datasets taken
    together are the milestones of the collection, each one once: no
    milestone is dropped and none is drawn twice, and each point carries
    its milestone's id, title, timeline and parsed dates. *)
Theorem chartData_points_partition (parseISO : string → Date)
    (ms : list Milestone) (h : gset string) (cd : ChartData) :
  chartData parseISO ms h = Returns cd →
  mjoin (d_data <$> datasets cd)
  ≡ₚ (λ m, {| p_x := (parseISO (m_start m), parseISO (m_end m));
              p_y := m_timeline m;
              p_title := m_title m;
              p_id := m_id m |}) <$> ms.
Proof.
  intros [Hok ->]%chartData_Returns_inv. cbn [datasets]. unfold datasets_of.
  rewrite <- list_fmap_compose.
  rewrite (list_fmap_ext _ (λ e, mkPointOf parseISO e.1 <$> e.2) _)
    by (intros i e _; apply d_data_mkDatasetOf).
  rewrite Object_entries_Permutation. unfold grouping_of.
  rewrite <- list_fmap_compose.
  rewrite (list_fmap_ext _
             (fmap (λ m, mkPointOf parseISO (m_timeline m) m) ∘ group_of ms) _).
  - rewrite list_fmap_compose, mjoin_fmap.
    rewrite mjoin_group_of; [done|apply NoDup_timelines|].
    intros m Hm. by apply elem_of_timelines, list_elem_of_fmap_2.
  - intros i t _. simpl. apply list_fmap_ext. intros j m Hj.
    apply list_elem_of_lookup_2, list_elem_of_filter in Hj as [<- _]. done.
Qed.

Lemma chartData_points_partition_witness :
  ∃ cd, chartData parseISO_utc year_named ∅ = Returns cd
        ∧ length (mjoin (d_data <$> datasets cd)) = 2.
Proof.
  eexists. split; [reflexivity|].
  rewrite (chartData_points_partition parseISO_utc year_named ∅ _ eq_refl).
  reflexivity.
Defined.

(** X14.  Whenever the transform returns, every dataset is well formed:
    its label is a category of the axis, it has at least one point, its
    points are the milestones of its timeline in stored order, and each
    point's [y] is the label, so every bar lands on an existing row. *)
Theorem chartData_dataset_shape (parseISO : string → Date)
    (ms : list Milestone) (h : gset string) (cd : ChartData) (ds : Dataset) :
  chartData parseISO ms h = Returns cd →
  ds ∈ datasets cd →
  d_label ds ∈ labels cd
  ∧ d_data ds ≠ []
  ∧ d_data ds
    = (λ m, {| p_x := (parseISO (m_start m), parseISO (m_end m));
               p_y := d_label ds;
               p_title := m_title m;
               p_id := m_id m |})
        <$> filter (λ m, m_timeline m = d_label ds) ms
  ∧ ∀ p, p ∈ d_data ds → p_y p = d_label ds ∧ p_y p ∈ labels cd.
Proof.
  intros [Hok ->]%chartData_Returns_inv Hds. cbn [labels datasets] in *.
  apply datasets_of_data in Hds as (Hlabel & Hdata & _).
  split_and!.
  - done.
  - rewrite Hdata. apply elem_of_timelines, list_elem_of_fmap in Hlabel
      as (m & Hm & Hin).
    intros Hnil%fmap_nil_inv.
    assert (m ∈ group_of ms (d_label ds)) as Hg
      by (rewrite Hm; by apply elem_of_group_of).
    rewrite Hnil in Hg. by apply elem_of_nil in Hg.
  - exact Hdata.
  - intros p Hp. rewrite Hdata in Hp.
    apply list_elem_of_fmap in Hp as (m & -> & _). done.
Qed.

Lemma chartData_dataset_shape_witness :
  ∃ cd ds, chartData parseISO_utc sample_collection ∅ = Returns cd
           ∧ ds ∈ datasets cd ∧ d_label ds = "Career" ∧ length (d_data ds) = 1.
Proof.
  eexists. eexists. split; [reflexivity|]. split.
  - apply list_elem_of_further, list_elem_of_here.
  - split; [reflexivity|].
    rewrite (proj1 (proj2 (proj2 (chartData_dataset_shape parseISO_utc
               sample_collection ∅ _ _ eq_refl
               (list_elem_of_further _ _ _ (list_elem_of_here _ _)))))).
    reflexivity.
Defined.

(** ** The order of the datasets *)

#[global] Instance index_le_total {V : Type} : Total (@index_le V).
Proof. intros a b. unfold index_le. lia. Qed.

#[global] Instance index_le_trans {V : Type} : Transitive (@index_le V).
Proof. intros a b c. unfold index_le. lia. Qed.

Lemma StronglySorted_and {A : Type} (R : relation A) (P : A → Prop) l :
  StronglySorted R l → Forall P l →
  StronglySorted (λ x y, R x y ∧ P x ∧ P y) l.
Proof.
  induction 1 as [|x l Hl IH Hx]; intros HP; [constructor|].
  apply Forall_cons in HP as [Px HP]. constructor; [by apply IH|].
  rewrite Forall_forall in *. intros y Hy. split_and!; auto.
Qed.

Lemma index_entries_tagged {V : Type} (o : obj V) :
  Forall (λ p, array_index p.2.1 = Some p.1) (index_entries o).
Proof.
  induction o as [|kv o IH]; [constructor|].
  rewrite index_entries_cons. destruct (array_index kv.1) eqn:Hkv; [|done].
  by constructor.
Qed.

Lemma index_entries_keys {V : Type} (F : string → V) (ts : list string) :
  (λ p, p.2.1) <$> index_entries ((λ t, (t, F t)) <$> ts)
  = filter (λ k, ¬ ordinary_key k) ts.
Proof.
  induction ts as [|t ts IH]; [done|].
  rewrite fmap_cons, index_entries_cons, filter_cons. cbn [fst].
  case_decide as Hd; unfold ordinary_key in Hd.
  - destruct (array_index t); [|done]. rewrite fmap_cons. by rewrite IH.
  - rewrite Hd. exact IH.
Qed.

Lemma ordinary_entries_keys {V : Type} (F : string → V) (ts : list string) :
  fst <$> filter (λ kv, array_index kv.1 = None) ((λ t, (t, F t)) <$> ts)
  = filter ordinary_key ts.
Proof.
  induction ts as [|t ts IH]; [done|].
  rewrite fmap_cons, !filter_cons. cbn [fst].
  destruct (decide (array_index t = None)) as [Hd|Hd].
  - rewrite decide_True by done. rewrite fmap_cons. by rewrite IH.
  - rewrite decide_False by done. exact IH.
Qed.

(** X15.  The order of the datasets, whenever the transform returns: the
    timelines named by an array index come first, in ascending numeric
    order, and the other timelines follow in Timeline Index order. *)
Theorem chartData_dataset_order (parseISO : string → Date)
    (ms : list Milestone) (h : gset string) (cd : ChartData) :
  chartData parseISO ms h = Returns cd →
  ∃ numeric,
    d_label <$> datasets cd = numeric ++ filter ordinary_key (timelines ms)
    ∧ numeric ≡ₚ filter (λ k, ¬ ordinary_key k) (timelines ms)
    ∧ StronglySorted key_le numeric.
Proof.
  intros [Hok ->]%chartData_Returns_inv. cbn [datasets]. unfold datasets_of.
  set (sorted := merge_sort index_le (index_entries (grouping_of ms))).
  exists ((λ p, p.2.1) <$> sorted). split_and!.
  - rewrite <- list_fmap_compose.
    rewrite (list_fmap_ext _ fst (Object_entries (grouping_of ms)))
      by (intros i e _; apply d_label_mkDatasetOf).
    unfold Object_entries. fold sorted. rewrite fmap_app. f_equal.
    + by rewrite <- list_fmap_compose.
    + apply ordinary_entries_keys.
  - unfold sorted. rewrite merge_sort_Permutation. unfold grouping_of.
    by rewrite index_entries_keys.
  - assert (StronglySorted index_le sorted) as Hsorted.
    { apply Sorted_StronglySorted; [apply _|].
      apply Sorted_merge_sort; apply _. }
    assert (Forall (λ p : N * (string * list Milestone),
                      array_index p.2.1 = Some p.1) sorted) as Htag.
    { unfold sorted. rewrite merge_sort_Permutation. apply index_entries_tagged. }
    eapply StronglySorted_fmap; [|exact (StronglySorted_and _ _ _ Hsorted Htag)].
    intros x y (Hle & Hx & Hy). unfold key_le. simpl in *. by rewrite Hx, Hy.
Qed.

Lemma chartData_dataset_order_witness :
  ∃ cd numeric,
    chartData parseISO_utc year_named ∅ = Returns cd
    ∧ d_label <$> datasets cd = ["2020"; "Work"]
    ∧ d_label <$> datasets cd
      = numeric ++ filter ordinary_key (timelines year_named)
    ∧ numeric ≡ₚ filter (λ k, ¬ ordinary_key k) (timelines year_named)
    ∧ StronglySorted key_le numeric.
Proof.
  destruct (chartData_dataset_order parseISO_utc year_named ∅ _ eq_refl)
    as (numeric & Hnumeric).
  eexists _, numeric. split; [reflexivity|]. split; [reflexivity|].
  exact Hnumeric.
Defined.

(** ** Colours *)

Lemma colorOf_timelines ms i t :
  timelines ms !! i = Some t →
  ∃ c, colorFamilies !! (i mod 5) = Some c
       ∧ colorOf (timelineColors (timelines ms)) t = c.
Proof.
  intros Hi. destruct (getColorFamily_is_Some i) as [c Hc].
  exists c. split; [exact Hc|]. unfold colorOf.
  by rewrite (timelineColors_lookup _ _ _ (NoDup_timelines ms) Hi), Hc.
Qed.

Lemma mkDatasetOf_colors parseISO colors h entry :
  (d_backgroundColor (mkDatasetOf parseISO colors h entry),
   d_borderColor (mkDatasetOf parseISO colors h entry))
  = ((colorOf colors entry.1).1.2, (colorOf colors entry.1).2).
Proof. destruct entry as [t ms]. simpl. by destruct (colorOf colors t) as [[? ?] ?]. Qed.

Lemma palette_not_fallback k c :
  colorFamilies !! k = Some c → c.1.2 ≠ "#888" ∧ c.2 ≠ "#555".
Proof.
  do 5 (destruct k as [|k]; [intros [= <-]; by split|]). done.
Qed.

(** X16.  Whenever the transform returns, the fill and border of every
    dataset are the mid and dark colours of the palette entry at the
    position of its timeline in the Timeline Index, modulo 5; the grey
    fallback colours are never used. *)
Theorem chartData_dataset_colors (parseISO : string → Date)
    (ms : list Milestone) (h : gset string) (cd : ChartData) (ds : Dataset) :
  chartData parseISO ms h = Returns cd →
  ds ∈ datasets cd →
  ∃ i light,
    timelines ms !! i = Some (d_label ds)
    ∧ colorFamilies !! (i mod 5)
      = Some (light, d_backgroundColor ds, d_borderColor ds)
    ∧ d_backgroundColor ds ≠ "#888" ∧ d_borderColor ds ≠ "#555".
Proof.
  intros [Hok ->]%chartData_Returns_inv Hds. cbn [datasets] in Hds.
  unfold datasets_of in Hds.
  apply list_elem_of_fmap in Hds as (entry & -> & Hentry).
  apply elem_of_Object_entries_grouping in Hentry as [Ht _].
  apply list_elem_of_lookup in Ht as [i Hi].
  destruct (colorOf_timelines ms i _ Hi) as (c & Hc & Hcol).
  pose proof (mkDatasetOf_colors parseISO (timelineColors (timelines ms)) h entry)
    as Hpair.
  rewrite Hcol in Hpair. injection Hpair as Hbg Hbd.
  destruct (palette_not_fallback _ _ Hc) as [Hmid Hdark].
  exists i, c.1.1. rewrite d_label_mkDatasetOf, Hbg, Hbd.
  split_and!; [done| |done|done]. destruct c as [[? ?] ?]. exact Hc.
Qed.

Lemma chartData_dataset_colors_witness :
  ∃ cd ds, chartData parseISO_utc sample_collection ∅ = Returns cd
           ∧ ds ∈ datasets cd ∧ d_borderColor ds ≠ "#555".
Proof.
  eexists. eexists. split; [reflexivity|]. split; [apply list_elem_of_here|].
  destruct (chartData_dataset_colors parseISO_utc sample_collection ∅ _ _
              eq_refl (list_elem_of_here _ _)) as (i & light & _ & _ & _ & H).
  exact H.
Defined.

Lemma filterChip_fields colors h t :
  c_key (filterChip colors h t) = t
  ∧ c_color (filterChip colors h t) = (colorOf colors t).2
  ∧ c_border (filterChip colors h t) = ("1px solid " ++ (colorOf colors t).2)%string
  ∧ c_background (filterChip colors h t)
    = (if bool_decide (t ∈ h) then "#fff" else (colorOf colors t).1.1)
  ∧ c_text (filterChip colors h t)
    = ((if bool_decide (t ∈ h) then "Show" else "Hide") ++ " " ++ t)%string.
Proof. unfold filterChip. by destruct (colorOf colors t) as [[? ?] ?]. Qed.

(** X17.  The chips and the chart agree.  Whenever the transform returns,
    the chip of a timeline is drawn in the border colour of that
    timeline's dataset, and it reads Show exactly when the dataset is
    flagged hidden, Hide otherwise. *)
Theorem filterChips_match_datasets (parseISO : string → Date) (st : AppState)
    (cd : ChartData) (c : Chip) (ds : Dataset) :
  chartData parseISO (milestones st) (hidden st) = Returns cd →
  c ∈ filterChips st → ds ∈ datasets cd → c_key c = d_label ds →
  c_color c = d_borderColor ds
  ∧ c_border c = ("1px solid " ++ d_borderColor ds)%string
  ∧ c_text c = ((if d_hidden ds then "Show" else "Hide") ++ " " ++ d_label ds)%string.
Proof.
  intros [Hok ->]%chartData_Returns_inv Hc Hds Hkey. cbn [datasets] in Hds.
  unfold filterChips in Hc. cbv zeta in Hc.
  apply list_elem_of_fmap in Hc as (t & -> & Ht).
  unfold datasets_of in Hds.
  apply list_elem_of_fmap in Hds as (entry & -> & Hentry).
  destruct (filterChip_fields (timelineColors (timelines (milestones st)))
              (hidden st) t) as (Hk & Hcol & Hbor & _ & Htext).
  rewrite Hk, d_label_mkDatasetOf in Hkey. subst t.
  pose proof (mkDatasetOf_colors parseISO
                (timelineColors (timelines (milestones st))) (hidden st) entry)
    as Hpair.
  injection Hpair as _ Hbd.
  rewrite Hcol, Hbor, Htext, Hbd, d_label_mkDatasetOf, d_hidden_mkDatasetOf.
  done.
Qed.

Lemma filterChips_match_datasets_witness :
  ∃ c, c ∈ filterChips (mkState sample_collection sample_form None {["Career"]})
       ∧ c_text c = "Show Career" ∧ c_color c = "#43A047".
Proof.
  eexists. split; [apply list_elem_of_further, list_elem_of_here|].
  destruct (filterChips_match_datasets parseISO_utc
              (mkState sample_collection sample_form None {["Career"]})
              _ _ _ eq_refl
              (list_elem_of_further _ _ _ (list_elem_of_here _ _))
              (list_elem_of_further _ _ _ (list_elem_of_here _ _)) eq_refl)
    as (Hcol & _ & Htext).
  split; [exact Htext|exact Hcol].
Defined.

(** X18.  Clicking the chip of timeline [t] changes that chip and no
    other: every chip keeps its place, its key and its colours; the chip
    of [t] switches between Hide and Show and between its light background
    and white; the other chips are exactly as before. *)
Theorem filterChips_toggle (t : string) (st : AppState) (i : nat) (c : Chip) :
  filterChips st !! i = Some c →
  ∃ c', filterChips (toggleTimeline t st) !! i = Some c'
        ∧ c_key c' = c_key c ∧ c_color c' = c_color c ∧ c_border c' = c_border c
        ∧ (c_key c ≠ t → c' = c)
        ∧ (c_key c = t →
           (c_text c = ("Hide " ++ t)%string ∧ c_text c' = ("Show " ++ t)%string
            ∧ c_background c' = "#fff")
           ∨ (c_text c = ("Show " ++ t)%string ∧ c_text c' = ("Hide " ++ t)%string
              ∧ c_background c = "#fff")).
Proof.
  unfold filterChips. cbv zeta. cbn [milestones hidden toggleTimeline].
  rewrite !list_lookup_fmap.
  destruct (timelines (milestones st) !! i) as [k|] eqn:Hk; [|done].
  cbn [fmap option_fmap option_map]. intros [= <-]. eexists. split; [done|].
  set (colors := timelineColors (timelines (milestones st))).
  set (h' := if decide (t ∈ hidden st) then hidden st ∖ {[t]} else hidden st ∪ {[t]}).
  destruct (filterChip_fields colors (hidden st) k) as (Hk1 & Hc1 & Hb1 & Hg1 & Ht1).
  destruct (filterChip_fields colors h' k) as (Hk2 & Hc2 & Hb2 & Hg2 & Ht2).
  rewrite Hk1, Hk2, Hc1, Hc2, Hb1, Hb2, Hg1, Hg2, Ht1, Ht2.
  clear Hk1 Hk2 Hc1 Hc2 Hb1 Hb2 Hg1 Hg2 Ht1 Ht2. clearbody colors.
  split_and!; [done..| |].
  - intros Hne. unfold filterChip.
    assert (bool_decide (k ∈ h') = bool_decide (k ∈ hidden st)) as ->; [|done].
    apply bool_decide_ext. subst h'. clear Hk. case_decide; set_solver.
  - intros ->. subst h'. clear Hk.
    destruct (decide (t ∈ hidden st)) as [Hin|Hout].
    + right. rewrite (bool_decide_eq_true_2 _ Hin).
      rewrite bool_decide_eq_false_2 by set_solver. done.
    + left. rewrite (bool_decide_eq_false_2 _ Hout).
      rewrite bool_decide_eq_true_2 by set_solver. done.
Qed.

Lemma filterChips_toggle_witness :
  ∃ c', filterChips (toggleTimeline "Career"
                       (mkState sample_collection sample_form None ∅)) !! 1
        = Some c'
        ∧ c_text c' = "Show Career".
Proof.
  destruct (filterChips_toggle "Career"
              (mkState sample_collection sample_form None ∅) 1 _ eq_refl)
    as (c' & Hc' & _ & _ & _ & _ & Hflip).
  exists c'. split; [exact Hc'|].
  destruct (Hflip eq_refl) as [(_ & Htext & _)|(Htext & _)].
  - exact Htext.
  - discriminate Htext.
Defined.

Lemma filterChips_index (st : AppState) :
  c_key <$> filterChips st = timelines (milestones st).
Proof.
  unfold filterChips. cbv zeta. rewrite <- list_fmap_compose.
  rewrite <- (list_fmap_id (timelines (milestones st))) at 3.
  apply list_fmap_ext. intros i t _. simpl.
  by destruct (filterChip_fields
                 (timelineColors (timelines (milestones st))) (hidden st) t)
    as (-> & _).
Qed.

Lemma length_timelines_le (ms : list Milestone) :
  (length (timelines ms) ≤ length ms)%nat.
Proof.
  rewrite timelines_first_seen.
  rewrite <- (length_fmap m_timeline ms).
  generalize (m_timeline <$> ms). intros l. unfold first_seen.
  generalize (@nil string). induction l as [|x l IH]; intros seen; simpl; [lia|].
  case_decide; simpl; [specialize (IH seen)|specialize (IH (x :: seen))]; lia.
Qed.

(** X19.  In every render that returns, there is one chip per timeline,
    in Timeline Index order, which is the order of the labels of the
    chart; no two chips have the same [key]; and there are never more
    chips than list items.  A render whose chart transform throws shows no
    chip at all. *)
Theorem App_chips_keys (parseISO : string → Date) (st : AppState) (v : View) :
  App parseISO st = Returns v →
  c_key <$> v_chips v = timelines (milestones st)
  ∧ c_key <$> v_chips v = labels (v_chart v)
  ∧ NoDup (c_key <$> v_chips v)
  ∧ (length (v_chips v) ≤ length (v_items v))%nat.
Proof.
  unfold App. intros Hv.
  destruct (chartData parseISO (milestones st) (hidden st)) as [cd|e] eqn:Hcd;
    [|discriminate].
  injection Hv as <-. cbn [v_chips v_chart v_items].
  apply chartData_Returns_inv in Hcd as [_ ->]. cbn [labels].
  rewrite filterChips_index. split_and!; [done|done|apply NoDup_timelines|].
  rewrite <- (length_fmap c_key), filterChips_index. apply length_timelines_le.
Qed.

Lemma App_chips_keys_witness :
  ∃ v, App parseISO_utc (mkState sample_collection sample_form None ∅) = Returns v
       ∧ c_key <$> v_chips v = ["Education"; "Career"]
       ∧ c_key <$> v_chips v = labels (v_chart v)
       ∧ App parseISO_utc (mkState prototype_named sample_form None ∅)
         = Throws TypeError.
Proof.
  eexists. split; [reflexivity|].
  destruct (App_chips_keys parseISO_utc
              (mkState sample_collection sample_form None ∅) _ eq_refl)
    as (Hkeys & Hlabels & _ & _).
  split; [exact Hkeys|]. split; [exact Hlabels|].
  unfold App. cbn [milestones hidden]. rewrite chartData_throws; [done|].
  apply Exists_cons_tl, Exists_cons_hd.
  unfold good_key. intros Hkey. apply Hkey. vm_compute. set_solver.
Defined.

(** ** The Timeline Index under the handlers *)

Lemma prefix_lookup_Some' (l1 l2 : list string) i x :
  l1 `prefix_of` l2 → l1 !! i = Some x → l2 !! i = Some x.
Proof. intros [k ->] Hi. by apply lookup_app_l_Some. Qed.

Lemma NoDup_lookup_unique (l : list string) i j x :
  NoDup l → l !! i = Some x → l !! j = Some x → i = j.
Proof. intros Hnd Hi Hj. by eapply NoDup_lookup. Qed.

(** X20.  Adding a record never recolours an existing timeline and never
    moves it: the old Timeline Index is a prefix of the new one, and every
    timeline that was there keeps its colour family. *)
Theorem add_keeps_colors (uuid : string) (st : AppState) (t : string) :
  editingId st = None →
  form_complete (form st) →
  t ∈ timelines (milestones st) →
  timelines (milestones st) `prefix_of` timelines (milestones (handleSubmit uuid st))
  ∧ colorOf (timelineColors (timelines (milestones (handleSubmit uuid st)))) t
    = colorOf (timelineColors (timelines (milestones st))) t.
Proof.
  intros He Hf Ht. rewrite handleSubmit_guard_passes by done.
  rewrite He. cbn [truthy_opt milestones].
  pose proof (timelines_app_prefix (milestones st)
                [newMilestone None uuid (form st)]) as Hpre.
  split; [exact Hpre|].
  apply list_elem_of_lookup in Ht as [i Hi].
  pose proof (prefix_lookup_Some' _ _ _ _ Hpre Hi) as Hi'.
  destruct (colorOf_timelines _ _ _ Hi) as (c & Hc & ->).
  destruct (colorOf_timelines _ _ _ Hi') as (c' & Hc' & ->).
  congruence.
Qed.

Lemma add_keeps_colors_witness :
  colorOf (timelineColors (timelines (milestones
             (handleSubmit "id-3" (mkState sample_collection sample_form None ∅)))))
    "Career"
  = ("#E8F5E9", "#66BB6A", "#43A047").
Proof.
  destruct (add_keeps_colors "id-3"
              (mkState sample_collection sample_form None ∅) "Career")
    as [_ Hsame].
  - reflexivity.
  - by repeat split.
  - vm_compute. apply list_elem_of_further, list_elem_of_here.
  - rewrite Hsame. vm_compute. reflexivity.
Defined.

Lemma handleSubmit_update_insert uuid st id i m :
  editingId st = Some id → id ≠ "" → form_complete (form st) →
  NoDup (m_id <$> milestones st) →
  milestones st !! i = Some m → m_id m = id →
  milestones (handleSubmit uuid st)
  = <[i := newMilestone (Some id) uuid (form st)]> (milestones st).
Proof.
  intros He Hid Hform Hnd Hi Hm.
  rewrite handleSubmit_guard_passes by done. cbn [milestones].
  rewrite He. cbn [truthy_opt]. apply truthy_true in Hid as ->.
  rewrite <- Hm. by apply fmap_replace_by_id.
Qed.

(** X21.  An update that leaves the timeline name of the record as it was
    changes neither the Timeline Index nor, therefore, the order of the
    categories and the colours. *)
Theorem update_same_timeline (uuid : string) (st : AppState)
    (id : string) (i : nat) (m : Milestone) :
  editingId st = Some id → id ≠ "" →
  form_complete (form st) →
  NoDup (m_id <$> milestones st) →
  milestones st !! i = Some m → m_id m = id →
  f_timeline (form st) = m_timeline m →
  timelines (milestones (handleSubmit uuid st)) = timelines (milestones st)
  ∧ timelineColors (timelines (milestones (handleSubmit uuid st)))
    = timelineColors (timelines (milestones st)).
Proof.
  intros He Hid Hform Hnd Hi Hm Htl.
  assert (timelines (milestones (handleSubmit uuid st))
          = timelines (milestones st)) as Heq; [|by rewrite Heq].
  rewrite (handleSubmit_update_insert uuid st id i m) by done.
  unfold timelines, Array_from. f_equal. rewrite list_fmap_insert.
  apply list_insert_id. rewrite list_lookup_fmap, Hi. simpl. by rewrite Htl.
Qed.

Lemma update_same_timeline_witness :
  timelines (milestones (handleSubmit "id-3"
               (mkState sample_collection sample_form (Some "id-2") ∅)))
  = ["Education"; "Career"].
Proof.
  destruct (update_same_timeline "id-3"
              (mkState sample_collection sample_form (Some "id-2") ∅)
              "id-2" 1
              (mkMilestone "id-2" "First Job" "Career" "2010-07-01" "2015-01-01"
                 (Some "")))
    as [Hsame _].
  - reflexivity.
  - done.
  - by repeat split.
  - vm_compute. repeat constructor; set_solver.
  - reflexivity.
  - reflexivity.
  - reflexivity.
  - rewrite Hsame. vm_compute. reflexivity.
Defined.

(** X22.  After a delete, a timeline is still in the Timeline Index, and
    so still has its chip and its row, exactly when some record of that
    timeline has another id: a timeline goes away when its last record is
    deleted, and no timeline ever appears by deleting. *)
Theorem timelines_after_delete (id t : string) (st : AppState) :
  (t ∈ timelines (milestones (handleDelete id st))
   ↔ ∃ m, m ∈ milestones st ∧ m_timeline m = t ∧ m_id m ≠ id)
  ∧ (t ∈ timelines (milestones (handleDelete id st)) → t ∈ timelines (milestones st)).
Proof.
  assert (milestones (handleDelete id st)
          = filter (λ m, m_id m ≠ id) (milestones st)) as ->.
  { unfold handleDelete. cbv zeta. by case_decide. }
  rewrite !elem_of_timelines, !list_elem_of_fmap. split.
  - split.
    + intros (m & -> & [Hne Hm]%list_elem_of_filter). by exists m.
    + intros (m & Hm & <- & Hne). exists m. split; [done|].
      by apply list_elem_of_filter.
  - intros (m & -> & [_ Hm]%list_elem_of_filter). by exists m.
Qed.

Lemma NoDup_colorFamilies : NoDup colorFamilies.
Proof.
  unfold colorFamilies. repeat (apply NoDup_cons; split; [set_solver|]).
  apply NoDup_nil_2.
Qed.

(** X23.  Two timelines of the Timeline Index have the same colour family
    exactly when their positions are congruent modulo 5: up to five
    timelines are all coloured differently, and the sixth repeats the
    first. *)
Theorem colors_equal_iff (ms : list Milestone) (i j : nat) (t1 t2 : string) :
  timelines ms !! i = Some t1 →
  timelines ms !! j = Some t2 →
  colorOf (timelineColors (timelines ms)) t1
  = colorOf (timelineColors (timelines ms)) t2
  ↔ i mod 5 = j mod 5.
Proof.
  intros Hi Hj.
  destruct (colorOf_timelines _ _ _ Hi) as (c1 & Hc1 & ->).
  destruct (colorOf_timelines _ _ _ Hj) as (c2 & Hc2 & ->).
  split.
  - intros ->. eapply NoDup_lookup; [apply NoDup_colorFamilies|done..].
  - intros Heq. rewrite Heq in Hc1. congruence.
Qed.

Lemma colors_equal_iff_witness :
  colorOf (timelineColors (timelines six_timelines)) "Zeta"
  = colorOf (timelineColors (timelines six_timelines)) "Alpha"
  ∧ colorOf (timelineColors (timelines six_timelines)) "Zeta"
    ≠ colorOf (timelineColors (timelines six_timelines)) "Epsilon".
Proof.
  split.
  - apply (proj2 (colors_equal_iff six_timelines 0 5 "Zeta" "Alpha"
                    eq_refl eq_refl)). reflexivity.
  - intros Heq.
    apply (proj1 (colors_equal_iff six_timelines 0 1 "Zeta" "Epsilon"
                    eq_refl eq_refl)) in Heq. discriminate Heq.
Defined.
